(** * futaba: the confusable-homoglyph text filter, the welcome model and ping

    A shallow embedding of [Filter] (cogs/filter/filter.py) and of the
    parts of Python's [re] module it runs on, of [WelcomeStorage] and
    [WelcomeModel] (sql/models/welcome.py) and of the arithmetic of
    [ping] (cogs/misc/core.py) (part I), the definitions the statements
    need (part II), the lemmas (part III), the properties of the filter
    (part IV) and further properties of the three files (part V).

    Python strings are sequences of Unicode code points: a [str] is a
    [list N].  Three things the filter takes from its environment are
    parameters of the development, and every general theorem holds for
    all of them: the confusables oracle
    ([confusable_homoglyphs.confusables.is_confusable]), the case folding
    of [re.IGNORECASE] ([lower]) and the built-in hash of strings
    ([hash_str]).  The welcome model takes the database behind
    [self.sql] as a parameter in the same way. *)

From Stdlib Require Import ZArith NArith List String Ascii Bool Lia.
From stdpp Require Import base option list gmap.

Set Default Proof Using "Type".
Local Open Scope N_scope.

(** * Part I: the program *)

(** ** Strings *)

Abbreviation str := (list N).

(** [ord c], as in Python: the code point of a character. *)
Definition ord (a : ascii) : N := N_of_ascii a.

(** An ASCII literal as a Python string. *)
Definition lit (s : string) : str := map ord (list_ascii_of_string s).

(** ** Outcomes of fallible code *)

Inductive exn :=
| re_error          (* re.error: the pattern does not compile *)
| AttributeError.

(** [Unmodelled]: the pattern uses syntax of [re] that this development
    does not give a meaning to (ranges, counted repeats, lazy repeats,
    [(?...)] extensions, alphanumeric escapes).  Nothing is claimed about
    such patterns. *)
Inductive result (A : Type) :=
| Ok (a : A)
| Raise (e : exn)
| Unmodelled.
Arguments Ok {A} a.
Arguments Raise {A} e.
Arguments Unmodelled {A}.

Definition bind {A B} (m : result A) (k : A -> result B) : result B :=
  match m with
  | Ok a => k a
  | Raise e => Raise e
  | Unmodelled => Unmodelled
  end.

Notation "'let*' x ':=' e 'in' k" := (bind e (fun x => k))
  (at level 10, x name, e at level 200, k at level 200).

(** ** Python's [re] module, as far as the filter uses it *)

Module re.

(** [re.escape] (Python 3.7 and later): a backslash before each of
    [()[]{}?*+-|^$\.&~#], space, tab, newline, carriage return, vertical
    tab and form feed; every other code point is left alone. *)
Definition special_chars : list N :=
  lit "()[]{}?*+-|^$\.&~# " ++ [9; 10; 13; 11; 12].

Definition is_special (c : N) : bool := existsb (N.eqb c) special_chars.

Definition escape_char (c : N) : str :=
  if is_special c then [92; c] else [c].

Definition escape (pattern : str) : str := flat_map escape_char pattern.

(** *** Parsed patterns *)

Inductive quantifier := ZeroOrMore | OneOrMore | ZeroOrOne.

Inductive regex :=
| Empty
| Literal (c : N)
| Any                                  (* [.]: anything but a newline *)
| In (negate : bool) (items : list N)  (* [[...]] and [[^...]] *)
| AtBeginning                          (* [^] *)
| AtEnd                                (* [$] *)
| Seq (r1 r2 : regex)
| Branch (r1 r2 : regex)               (* [r1|r2] *)
| Repeat (q : quantifier) (r : regex)  (* greedy [*], [+], [?] *)
| Subpattern (r : regex).              (* [(r)] *)

(** *** The parser (sre_parse), one code point at a time

    A frame holds what has been read of one parenthesis level: the
    finished branches and the items of the branch being read, both most
    recent first. *)

Record frame := Frame { branches : list regex; items : list regex }.

Definition empty_frame : frame := Frame [] [].

Definition push (r : regex) (f : frame) : frame :=
  Frame (branches f) (r :: items f).

Definition seq_of (its : list regex) : regex := foldr Seq Empty its.

Definition close_frame (f : frame) : regex :=
  foldl (fun acc b => Branch b acc) (seq_of (rev (items f))) (branches f).

Inductive mode :=
| InPattern
| AfterEscape                                   (* after a backslash *)
| AfterOpen                                     (* after [(] *)
| AfterRepeat                                   (* after [*], [+] or [?] *)
| SetOpen                                       (* after [[] *)
| SetStart (negate : bool)                      (* in a set, nothing read *)
| SetItem (negate : bool) (acc : list N) (code1 : N)
                                                (* an item read, not yet stored *)
| SetEscape (negate : bool) (acc : list N)      (* after a backslash in a set *)
| SetDash (negate : bool) (acc : list N) (code1 : N).
                                                (* after item and [-] *)

Record pstate := PState { stack : list frame; cur : frame; pmode : mode }.

Definition is_ascii_alnum (c : N) : bool :=
  ((48 <=? c) && (c <=? 57)) || ((65 <=? c) && (c <=? 90))
  || ((97 <=? c) && (c <=? 122)).

Definition is_at (r : regex) : bool :=
  match r with AtBeginning | AtEnd => true | _ => false end.

Definition is_repeat (r : regex) : bool :=
  match r with Repeat _ _ => true | _ => false end.

Definition repeat_last (q : quantifier) (stk : list frame) (f : frame)
  : result pstate :=
  match items f with
  | [] => Raise re_error                        (* nothing to repeat *)
  | it :: its =>
      if is_at it then Raise re_error           (* nothing to repeat *)
      else if is_repeat it then Raise re_error  (* multiple repeat *)
      else Ok (PState stk (Frame (branches f) (Repeat q it :: its)) AfterRepeat)
  end.

(** One code point read outside a set. *)
Definition step_pattern (stk : list frame) (f : frame) (c : N) : result pstate :=
  if c =? 92 then Ok (PState stk f AfterEscape)
  else if c =? 91 then Ok (PState stk f SetOpen)
  else if c =? 123 then Unmodelled              (* [{]: counted repeat or literal *)
  else if c =? 40 then Ok (PState (f :: stk) empty_frame AfterOpen)
  else if c =? 41 then
    match stk with
    | [] => Raise re_error                      (* unbalanced parenthesis *)
    | parent :: stk' =>
        Ok (PState stk' (push (Subpattern (close_frame f)) parent) InPattern)
    end
  else if c =? 42 then repeat_last ZeroOrMore stk f
  else if c =? 43 then repeat_last OneOrMore stk f
  else if c =? 63 then repeat_last ZeroOrOne stk f
  else if c =? 46 then Ok (PState stk (push Any f) InPattern)
  else if c =? 94 then Ok (PState stk (push AtBeginning f) InPattern)
  else if c =? 36 then Ok (PState stk (push AtEnd f) InPattern)
  else if c =? 124 then
    Ok (PState stk (Frame (seq_of (rev (items f)) :: branches f) []) InPattern)
  else Ok (PState stk (push (Literal c) f) InPattern).

(** One code point read inside a set that already holds [acc]. *)
Definition step_set (stk : list frame) (f : frame) (negate : bool)
    (acc : list N) (c : N) : result pstate :=
  if (c =? 93) && negb (bool_decide (acc = [])) then
    Ok (PState stk (push (In negate (rev acc)) f) InPattern)
  else if c =? 92 then Ok (PState stk f (SetEscape negate acc))
  else Ok (PState stk f (SetItem negate acc c)).

Definition step (st : pstate) (c : N) : result pstate :=
  let stk := stack st in
  let f := cur st in
  match pmode st with
  | InPattern => step_pattern stk f c
  | AfterEscape =>
      if is_ascii_alnum c then Unmodelled       (* \d, \w, \1, \n, ... *)
      else Ok (PState stk (push (Literal c) f) InPattern)
  | AfterOpen =>
      if c =? 63 then Unmodelled                (* [(?...)] *)
      else step_pattern stk f c
  | AfterRepeat =>
      if (c =? 63) || (c =? 43) then Unmodelled (* lazy, possessive *)
      else step_pattern stk f c
  | SetOpen =>
      if c =? 94 then Ok (PState stk f (SetStart true))
      else step_set stk f false [] c
  | SetStart negate => step_set stk f negate [] c
  | SetItem negate acc code1 =>
      if c =? 45 then Ok (PState stk f (SetDash negate acc code1))
      else step_set stk f negate (code1 :: acc) c
  | SetEscape negate acc =>
      if is_ascii_alnum c then Unmodelled
      else Ok (PState stk f (SetItem negate acc c))
  | SetDash negate acc code1 =>
      if c =? 93 then
        Ok (PState stk (push (In negate (rev (45 :: code1 :: acc))) f) InPattern)
      else Unmodelled                           (* a range *)
  end.

Fixpoint feed (st : pstate) (s : str) : result pstate :=
  match s with
  | [] => Ok st
  | c :: s' => let* st' := step st c in feed st' s'
  end.

Definition finish (st : pstate) : result regex :=
  match pmode st with
  | InPattern | AfterRepeat =>
      match stack st with
      | [] => Ok (close_frame (cur st))
      | _ :: _ => Raise re_error                (* missing ) *)
      end
  | AfterOpen => Raise re_error                 (* missing ) *)
  | AfterEscape | SetEscape _ _ => Raise re_error   (* bad escape *)
  | SetOpen | SetStart _ | SetItem _ _ _ | SetDash _ _ _ =>
      Raise re_error                            (* unterminated character set *)
  end.

Definition parse (pattern : str) : result regex :=
  let* st := feed (PState [] empty_frame InPattern) pattern in finish st.

(** *** Matching (the sre engine)

    [exec r pos s k]: match [r] against [s], the part of the subject from
    offset [pos] on, and hand the offset and the rest after the match to
    [k]; the alternatives are tried in the engine's order (greedy repeats
    take an iteration first), and the first one that [k] accepts wins.  An
    iteration of a repeat that consumes nothing is not taken again, so a
    repeat takes at most as many iterations as code points are left: the
    fuel [length s] of its loop is never what stops it ([exec_star] in
    part III is the equation of the loop without the fuel). *)

Section Matching.

(** The case folding of [re.IGNORECASE]: two code points are the same
    to the engine when their foldings are equal.  In CPython the folding
    is the lower-case mapping of a code point, completed by the few
    equivalences the engine knows beside it (U+017F with "s", for one). *)
Variable lower : N -> N.

(** [ignorecase]: the pattern was compiled with [re.IGNORECASE]. *)
Variable ignorecase : bool.

(** A code point [p] of the pattern against a code point [x] of the
    subject. *)
Definition chr_eq (p x : N) : bool :=
  if ignorecase then lower p =? lower x else p =? x.

(** A set holds literal members only (ranges and categories are not
    modelled); a code point is in it when it is the same as a member. *)
Definition in_set (negate : bool) (its : list N) (x : N) : bool :=
  xorb negate (existsb (fun i => chr_eq i x) its).

Fixpoint exec (r : regex) (pos : nat) (s : str)
    (k : nat -> str -> option nat) {struct r} : option nat :=
  match r with
  | Empty => k pos s
  | Literal c =>
      match s with
      | x :: xs => if chr_eq c x then k (S pos) xs else None
      | [] => None
      end
  | Any =>
      match s with
      | x :: xs => if x =? 10 then None else k (S pos) xs
      | [] => None
      end
  | In negate its =>
      match s with
      | x :: xs => if in_set negate its x then k (S pos) xs else None
      | [] => None
      end
  | AtBeginning => if Nat.eqb pos 0 then k pos s else None
  | AtEnd =>
      match s with
      | [] => k pos s
      | [x] => if x =? 10 then k pos s else None
      | _ => None
      end
  | Seq r1 r2 => exec r1 pos s (fun pos' s' => exec r2 pos' s' k)
  | Branch r1 r2 =>
      match exec r1 pos s k with
      | Some e => Some e
      | None => exec r2 pos s k
      end
  | Repeat q r1 =>
      let loop :=
        fix loop (n : nat) (pos : nat) (s : str) : option nat :=
          match
            match n with
            | S n' =>
                exec r1 pos s
                  (fun pos' s' => if Nat.ltb pos pos' then loop n' pos' s' else None)
            | O => None
            end
          with
          | Some e => Some e
          | None => k pos s
          end in
      match q with
      | ZeroOrMore => loop (length s) pos s
      | OneOrMore => exec r1 pos s (fun pos' s' => loop (length s') pos' s')
      | ZeroOrOne =>
          match exec r1 pos s k with
          | Some e => Some e
          | None => k pos s
          end
      end
  | Subpattern r1 => exec r1 pos s k
  end.

(** A match object: the span of the match. *)
Record Match := { m_start : nat; m_end : nat }.

(** Scan for the first offset at which the pattern matches.
    [must_advance] (set by [sub] after an empty match) refuses an empty
    match at the first offset tried. *)
Fixpoint search_from (r : regex) (must_advance : bool) (pos : nat) (s : str)
  : option Match :=
  match
    exec r pos s
      (fun e _ => if must_advance && Nat.eqb e pos then None else Some e)
  with
  | Some e => Some {| m_start := pos; m_end := e |}
  | None =>
      match s with
      | [] => None
      | _ :: s' => search_from r false (S pos) s'
      end
  end.

(** [Pattern.sub(repl, string)] for a replacement without backslashes:
    every non-overlapping match, leftmost first, is replaced by [repl].
    Two rounds of the loop get past at least one code point (after an
    empty match the next one must advance), and the loop ends with a
    search that fails: the fuel of [sub] is never used up
    ([sub_loop_fuel] in part III). *)
Fixpoint sub_loop (fuel : nat) (r : regex) (repl : str) (must_advance : bool)
    (pos : nat) (s : str) : str :=
  match fuel with
  | O => s
  | S fuel' =>
      match search_from r must_advance pos s with
      | None => s
      | Some m =>
          let b := (m_start m - pos)%nat in
          let e := (m_end m - pos)%nat in
          take b s ++ repl ++
            sub_loop fuel' r repl (Nat.eqb (m_end m) (m_start m)) (m_end m)
              (drop e s)
      end
  end.

End Matching.

(** *** Compiled patterns *)

Record Pattern := { pattern : str; IGNORECASE : bool; code : regex }.

Definition compile (pat : str) (flags : bool) : result Pattern :=
  let* r := parse pat in Ok {| pattern := pat; IGNORECASE := flags; code := r |}.

Definition search (lower : N -> N) (p : Pattern) (s : str) : option Match :=
  search_from lower (IGNORECASE p) (code p) false 0 s.

Definition sub (lower : N -> N) (p : Pattern) (repl : str) (s : str) : str :=
  sub_loop lower (IGNORECASE p) (2 * length s + 3) (code p) repl false 0 s.

End re.

(** ** The confusables oracle

    [confusables.is_confusable(text, greedy=True)] answers with a list of
    groups, one per character of [text] that has look-alikes, or with
    [False]; the empty list stands for [False] here (both are falsy, and
    the filter only tests the answer's truth value before it iterates).
    A group is a dict; the filter reads its keys ["character"] (one code
    point of [text]) and ["homoglyphs"], and the key ["c"] (a string) of
    each homoglyph. *)

Record homoglyph := { c : str }.

Record group := { character : N; homoglyphs : list homoglyph }.

(** ** futaba.str_builder.StringBuilder *)

Module StringBuilder.

(** Modelled from the spec: [futaba/str_builder.py] is not among the
    sources.  The filter uses the builder to emit fragments and to
    concatenate them in the order written (spec 4.1, steps 3 to 5): a
    builder is the list of the fragments written so far. *)
Definition t := list str.

(** Modelled from the spec: [StringBuilder()], nothing written yet. *)
Definition new : t := [].

(** Modelled from the spec: [write] emits one more fragment. *)
Definition write (sb : t) (text : str) : t := sb ++ [text].

(** Modelled from the spec: [clear] drops what was written. *)
Definition clear (sb : t) : t := [].

(** Modelled from the spec: [str(builder)] concatenates the fragments in
    the order written. *)
Definition to_str (sb : t) : str := concat sb.

End StringBuilder.

(** ** cogs/filter/filter.py *)

(** The pieces the source joins into the pattern of
    [UNICODE_SPACES_REGEX] (U+2006 is written twice there). *)
Definition UNICODE_SPACES_PATTERN : str :=
  concat
    [ lit "[";
      [0x0020; 0x00a0; 0x1680];
      [0x180e; 0x2000; 0x2001];
      [0x2002; 0x2003; 0x2004];
      [0x2005; 0x2006; 0x2006];
      [0x2007; 0x2008; 0x2009];
      [0x200a; 0x200b; 0x202f];
      [0x205f; 0x3000; 0xfeff];
      lit "]" ].

(** The members of that class. *)
Definition UNICODE_SPACES : list N :=
  [0x0020; 0x00a0; 0x1680; 0x180e; 0x2000; 0x2001; 0x2002; 0x2003; 0x2004;
   0x2005; 0x2006; 0x2006; 0x2007; 0x2008; 0x2009; 0x200a; 0x200b; 0x202f;
   0x205f; 0x3000; 0xfeff].

(** [UNICODE_SPACES_REGEX = re.compile("[...]")], evaluated when the
    module is loaded; [UNICODE_SPACES_REGEX_compiled] below shows that the
    compilation succeeds with this value. *)
Definition UNICODE_SPACES_REGEX : re.Pattern :=
  {| re.pattern := UNICODE_SPACES_PATTERN;
     re.IGNORECASE := false;
     re.code := re.Seq (re.In false UNICODE_SPACES) re.Empty |}.

Module Filter.

(** [__slots__ = ("text", "regex")] *)
Record t := { text : str; regex : re.Pattern }.

(** Python values, as far as [__eq__] can tell them apart. *)
Inductive object :=
| PyNone
| PyBool (b : bool)
| PyInt (z : Z)
| PyStr (s : str)
| PyFilter (f : t).

(** [isinstance(v, Filter)] *)
Definition isinstance_Filter (v : object) : bool :=
  match v with PyFilter _ => true | _ => false end.

(** [v.text]: only a [Filter] has the attribute. *)
Definition getattr_text (v : object) : result str :=
  match v with
  | PyFilter f => Ok (text f)
  | _ => Raise AttributeError
  end.

(** One iteration of the first loop of [build_regex]: the class of one
    group is written, stored under the group's character, and the builder
    is cleared. *)
Definition build_class (st : gmap N str * StringBuilder.t) (group : group)
  : gmap N str * StringBuilder.t :=
  let '(chars, pattern) := st in
  let pattern := StringBuilder.write pattern (lit "[") in
  let char := character group in
  let pattern := StringBuilder.write pattern (re.escape [char]) in
  let pattern :=
    foldl (fun pattern homoglyph =>
             StringBuilder.write pattern (re.escape (c homoglyph)))
          pattern (homoglyphs group) in
  let pattern := StringBuilder.write pattern (lit "]") in
  let chars := <[char := StringBuilder.to_str pattern]> chars in
  let pattern := StringBuilder.clear pattern in
  (chars, pattern).

Definition build_regex (text : str) (groups : list group) : str :=
  (* Build similar character tree *)
  let '(chars, pattern) := foldl build_class (∅, StringBuilder.new) groups in
  (* Create pattern *)
  let pattern :=
    foldl (fun pattern char =>
             StringBuilder.write pattern (default [char] (chars !! char)))
          pattern text in
  StringBuilder.to_str pattern.

Section Filter.

Variable lower : N -> N.
Variable is_confusable : str -> list group.
Variable hash_str : str -> Z.

(** The local variable [pattern] of [__init__]. *)
Definition init_pattern (text : str) : str :=
  let groups := is_confusable text in
  if negb (bool_decide (groups = [])) then build_regex text groups
  else re.escape text.

Definition __init__ (text : str) : result t :=
  let pattern := init_pattern text in
  let* regex := re.compile pattern true in
  Ok {| text := text; regex := regex |}.

Definition matches (self : t) (content : str) : bool :=
  let contents := [content; re.sub lower UNICODE_SPACES_REGEX [] content] in
  existsb (fun content => bool_decide (is_Some (re.search lower (regex self) content)))
          contents.

Definition __hash__ (self : t) : Z :=
  Z.lxor (hash_str (text self)) 0x2C6F024ED28.

(** The built-in [hash(obj)] on the value [h] that [obj.__hash__()]
    returned, for [h] in the range of a machine word: [-1] is reserved
    and becomes [-2]. *)
Definition builtin_hash (h : Z) : Z := if (h =? -1)%Z then (-2)%Z else h.

(** [Filter.__eq__(self, other)].  [and] evaluates its right operand
    only when the left one is true, and the method never answers
    [NotImplemented], so [m == x] is this value. *)
Definition __eq__ (self other : object) : result bool :=
  if isinstance_Filter self then
    if isinstance_Filter other then
      let* a := getattr_text self in
      let* b := getattr_text other in
      Ok (bool_decide (a = b))
    else Ok false
  else Ok false.

End Filter.

End Filter.

(** ** sql/models/welcome.py

    The model keeps, per guild, a [WelcomeStorage] object in
    [welcome_cache] beside a row of the table [welcome], and the rows of
    the table [join_alerts].  The methods run SQL statements through
    [self.sql.execute] and read and write the caches.

    The embedding passes the state of the model explicitly.  Storage
    objects live in a heap and the cache holds references to them: the
    object [get_welcome] hands out is the object the setters assign to.
    A method that raises keeps the changes it made before.  The database
    behind [self.sql] is a parameter: a statement is run by [execute],
    which may change the connection's state and returns a result or
    raises.  The calls to [logger] are left out, with the call of
    [futaba.utils.lowerbool] that formats the flag for one of them. *)

Module Welcome.

(** *** Exceptions and outcomes *)

Inductive exception :=
| KeyError
| TypeError
| ValueError
| AssertionError
| IntegrityError             (* sqlalchemy.exc.IntegrityError *)
| DatabaseError (code : N).  (* any other error of the database *)

Inductive outcome (A : Type) :=
| Return (a : A)
| Throw (e : exception).
Arguments Return {A} a.
Arguments Throw {A} e.

(** *** discord.py objects, as far as the model reads them *)

(** [discord.TextChannel]: [guild] is the id of the guild the channel
    belongs to (guilds compare by id). *)
Module TextChannel.
Record t := { id : Z; name : str; guild : Z }.
End TextChannel.

(** [discord.Guild].  Guilds are equal, and hash alike, when their ids
    are equal: a dict keyed by guilds is keyed by their ids. *)
Module Guild.
Record t := { id : Z; name : str; text_channels : list TextChannel.t }.
End Guild.

(** [discord.utils.get(iterable, id=value)]: the first element whose
    [id] equals [value], or [None].  No channel has the id [None]. *)
Definition utils_get (iterable : list TextChannel.t) (id : option Z)
  : option TextChannel.t :=
  snd <$> list_find (fun elem => Some (TextChannel.id elem) = id) iterable.

(** *** class WelcomeStorage *)

Module WelcomeStorage.

(** [__slots__]: the six attributes. *)
Record t := {
  guild : Guild.t;
  welcome_message : option str;
  goodbye_message : option str;
  agreed_message : option str;
  delete_on_agree : bool;
  welcome_channel : option TextChannel.t
}.

Definition __init__ (guild : Guild.t)
    (welcome_message goodbye_message agreed_message : option str)
    (delete_on_agree : bool) (welcome_channel_id : option Z) : t :=
  {| guild := guild;
     welcome_message := welcome_message;
     goodbye_message := goodbye_message;
     agreed_message := agreed_message;
     delete_on_agree := delete_on_agree;
     welcome_channel := utils_get (Guild.text_channels guild) welcome_channel_id |}.

(** [WelcomeStorage(guild)]: the defaults of the keyword arguments. *)
Definition default (guild : Guild.t) : t :=
  __init__ guild None None None true None.

Definition channel (self : t) : option TextChannel.t := welcome_channel self.

(** [getattr(self.welcome_channel, "id", None)] *)
Definition welcome_channel_id (self : t) : option Z :=
  TextChannel.id <$> welcome_channel self.

Definition channel_id (self : t) : option Z := welcome_channel_id self.

(** Attribute assignments, [self.<attribute> = value]. *)
Definition set_welcome_message (value : option str) (self : t) : t :=
  {| guild := guild self; welcome_message := value;
     goodbye_message := goodbye_message self;
     agreed_message := agreed_message self;
     delete_on_agree := delete_on_agree self;
     welcome_channel := welcome_channel self |}.

Definition set_goodbye_message (value : option str) (self : t) : t :=
  {| guild := guild self; welcome_message := welcome_message self;
     goodbye_message := value;
     agreed_message := agreed_message self;
     delete_on_agree := delete_on_agree self;
     welcome_channel := welcome_channel self |}.

Definition set_agreed_message (value : option str) (self : t) : t :=
  {| guild := guild self; welcome_message := welcome_message self;
     goodbye_message := goodbye_message self;
     agreed_message := value;
     delete_on_agree := delete_on_agree self;
     welcome_channel := welcome_channel self |}.

Definition set_delete_on_agree (value : bool) (self : t) : t :=
  {| guild := guild self; welcome_message := welcome_message self;
     goodbye_message := goodbye_message self;
     agreed_message := agreed_message self;
     delete_on_agree := value;
     welcome_channel := welcome_channel self |}.

Definition set_welcome_channel (value : option TextChannel.t) (self : t) : t :=
  {| guild := guild self; welcome_message := welcome_message self;
     goodbye_message := goodbye_message self;
     agreed_message := agreed_message self;
     delete_on_agree := delete_on_agree self;
     welcome_channel := value |}.

End WelcomeStorage.

(** *** class WelcomeModel *)

Module WelcomeModel.

Section WelcomeModel.

(** [futaba.enums.JoinAlertKey] and [ValueRelationship] are not among the
    sources; the model takes the two enumerations, the type of the values
    of an alert, [str] on these values and [JoinAlertKey.parse_value] as
    they come. *)
Context {JoinAlertKey : Type} `{!EqDecision JoinAlertKey, !Countable JoinAlertKey}.
Context {ValueRelationship value : Type}.
Variable str_value : value -> str.
Variable parse_value : JoinAlertKey -> str -> outcome value.

(** A join alert: the model reads [alert.key], [alert.op] and
    [alert.value]. *)
Record Alert := { key : JoinAlertKey; op : ValueRelationship; alert_value : value }.

(** The statements the model builds on its two tables.  [InsertWelcome]
    has no value for the column [agreed_message]; the value it has for
    [welcome_message] is what [add_welcome] passes, the attribute
    [welcome_channel] of the storage. *)
Inductive values :=
| Values_welcome_message (welcome_message : option str)
| Values_goodbye_message (goodbye_message : option str)
| Values_agreed_message (agreed_message : option str)
| Values_delete_on_agree (delete_on_agree : bool)
| Values_welcome_channel_id (welcome_channel_id : option Z).

Inductive statement :=
| InsertWelcome (guild_id : Z) (welcome_message : option TextChannel.t)
    (goodbye_message : option str) (delete_on_agree : bool)
    (welcome_channel_id : option Z)
| DeleteWelcome (guild_id : Z)
| SelectWelcome (guild_id : Z)
| UpdateWelcome (guild_id : Z) (v : values)
| InsertAlert (guild_id : Z) (alert_key : JoinAlertKey) (op : ValueRelationship)
    (value : str)
| UpdateAlert (guild_id : Z) (alert_key : JoinAlertKey) (op : ValueRelationship)
    (value : str)
| DeleteAlert (guild_id : Z) (alert_key : JoinAlertKey)
| SelectAlerts (guild_id : Z)
| DeleteAlerts (guild_id : Z).

(** A row of a result: the five columns [get_welcome] selects or the
    three columns [get_all_alerts] selects. *)
Inductive row :=
| WelcomeRow (welcome_message goodbye_message agreed_message : option str)
    (delete_on_agree : bool) (welcome_channel_id : option Z)
| AlertRow (alert_key : JoinAlertKey) (op : ValueRelationship) (value : str).

(** The attribute [rowcount] of a result.  SQLAlchemy's is an integer
    ([IntAttr]); the model reads it as a value in [get_welcome] and calls
    it in [remove_alert], so both kinds of attribute are given a
    meaning. *)
Inductive attribute :=
| IntAttr (n : Z)
| MethodAttr (n : Z).

(** [bool(attr)]: an integer is true when it is not zero, a bound method
    is true. *)
Definition truth (attr : attribute) : bool :=
  match attr with
  | IntAttr n => negb (n =? 0)%Z
  | MethodAttr _ => true
  end.

(** [attr()]: an integer is not callable. *)
Definition call (attr : attribute) : outcome Z :=
  match attr with
  | IntAttr _ => Throw TypeError
  | MethodAttr n => Return n
  end.

Record ResultProxy := { rowcount : attribute; rows : list row }.

(** The database behind [self.sql]. *)
Context {connection : Type}.
Variable execute : statement -> connection -> connection * outcome ResultProxy.

(** [__slots__]; the two tables are fixed and are part of [statement].
    [heap] holds the storage objects created so far, [welcome_cache] maps
    the id of a guild to a reference into it.  Nothing ever stores into a
    dict of [alerts_cache]: such a dict is given by its set of keys. *)
Record t := {
  sql : connection;
  heap : list WelcomeStorage.t;
  welcome_cache : gmap Z nat;
  alerts_cache : gmap Z (gset JoinAlertKey)
}.

(** [WelcomeModel(sql, meta)]: both caches empty.  (The three calls to
    [register_hook] are not modelled: [sql/hooks.py] is not among the
    sources.) *)
Definition __init__ (sql : connection) : t :=
  {| sql := sql; heap := []; welcome_cache := ∅; alerts_cache := ∅ |}.

(** Computations on the state of the model that return or raise. *)
Definition M (A : Type) : Type := t -> t * outcome A.

Definition ret {A} (a : A) : M A := fun self => (self, Return a).

Definition raise {A} (e : exception) : M A := fun self => (self, Throw e).

Definition lift {A} (o : outcome A) : M A := fun self => (self, o).

Definition bindM {A B} (m : M A) (k : A -> M B) : M B := fun self =>
  match m self with
  | (self', Return a) => k a self'
  | (self', Throw e) => (self', Throw e)
  end.

Notation "x <- e ;; k" := (bindM e (fun x => k))
  (at level 100, e at next level, k at level 200, right associativity).
Notation "e ;;; k" := (bindM e (fun _ => k))
  (at level 100, k at level 200, right associativity).

(** [assert cond] *)
Definition assert (cond : bool) : M unit :=
  if cond then ret tt else raise AssertionError.

(** [self.sql.execute(stmt)] *)
Definition sql_execute (stmt : statement) : M ResultProxy := fun self =>
  let '(conn, r) := execute stmt (sql self) in
  ({| sql := conn; heap := heap self; welcome_cache := welcome_cache self;
      alerts_cache := alerts_cache self |}, r).

(** A new storage object; the reference to it. *)
Definition new (storage : WelcomeStorage.t) : M nat := fun self =>
  ({| sql := sql self; heap := heap self ++ [storage];
      welcome_cache := welcome_cache self; alerts_cache := alerts_cache self |},
   Return (length (heap self))).

(** An attribute assignment on the object behind a reference. *)
Definition setattr (ref : nat) (assign : WelcomeStorage.t -> WelcomeStorage.t)
  : M unit := fun self =>
  ({| sql := sql self; heap := alter assign ref (heap self);
      welcome_cache := welcome_cache self; alerts_cache := alerts_cache self |},
   Return tt).

(** [guild in self.welcome_cache] *)
Definition welcome_cache_contains (guild : Guild.t) : M bool := fun self =>
  (self, Return (bool_decide (is_Some (welcome_cache self !! Guild.id guild)))).

(** [self.welcome_cache[guild]] *)
Definition welcome_cache_getitem (guild : Guild.t) : M nat := fun self =>
  match welcome_cache self !! Guild.id guild with
  | Some ref => (self, Return ref)
  | None => (self, Throw KeyError)
  end.

(** [self.welcome_cache[guild] = storage] *)
Definition welcome_cache_setitem (guild : Guild.t) (ref : nat) : M unit :=
  fun self =>
  ({| sql := sql self; heap := heap self;
      welcome_cache := <[Guild.id guild := ref]> (welcome_cache self);
      alerts_cache := alerts_cache self |}, Return tt).

(** [self.welcome_cache.pop(guild, None)] *)
Definition welcome_cache_pop (guild : Guild.t) : M unit := fun self =>
  ({| sql := sql self; heap := heap self;
      welcome_cache := delete (Guild.id guild) (welcome_cache self);
      alerts_cache := alerts_cache self |}, Return tt).

(** [self.alerts_cache[guild]] on a [defaultdict(dict)]: a missing key
    is given an empty dict first. *)
Definition alerts_cache_getitem (guild : Guild.t) : M (gset JoinAlertKey) :=
  fun self =>
  match alerts_cache self !! Guild.id guild with
  | Some d => (self, Return d)
  | None =>
      ({| sql := sql self; heap := heap self; welcome_cache := welcome_cache self;
          alerts_cache := <[Guild.id guild := ∅]> (alerts_cache self) |}, Return ∅)
  end.

(** [a, b, c, d, e = result.fetchone()]: [fetchone] gives the first row,
    or [None], which cannot be unpacked. *)
Definition fetchone_unpack5 (result : ResultProxy)
  : outcome (option str * option str * option str * bool * option Z) :=
  match rows result with
  | [] => Throw TypeError
  | WelcomeRow wm gm am doa wcid :: _ => Return (wm, gm, am, doa, wcid)
  | AlertRow _ _ _ :: _ => Throw ValueError
  end.

(** [key, op, raw_value = row] *)
Definition unpack3 (r : row) : outcome (JoinAlertKey * ValueRelationship * str) :=
  match r with
  | AlertRow key op raw_value => Return (key, op, raw_value)
  | WelcomeRow _ _ _ _ _ => Throw ValueError
  end.

Definition add_welcome (guild : Guild.t) : M unit :=
  let storage_value := WelcomeStorage.default guild in
  storage <- new storage_value ;;
  sql_execute
    (InsertWelcome (Guild.id guild)
       (WelcomeStorage.welcome_channel storage_value)
       (WelcomeStorage.goodbye_message storage_value)
       (WelcomeStorage.delete_on_agree storage_value)
       (WelcomeStorage.welcome_channel_id storage_value)) ;;;
  welcome_cache_setitem guild storage.

Definition remove_welcome (guild : Guild.t) : M unit :=
  sql_execute (DeleteWelcome (Guild.id guild)) ;;;
  welcome_cache_pop guild.

Definition get_welcome (guild : Guild.t) : M nat :=
  cached <- welcome_cache_contains guild ;;
  if (cached : bool) then welcome_cache_getitem guild
  else
    result <- sql_execute (SelectWelcome (Guild.id guild)) ;;
    if negb (truth (rowcount result)) then
      add_welcome guild ;;;
      welcome_cache_getitem guild
    else
      r <- lift (fetchone_unpack5 result) ;;
      let '(welcome_message, goodbye_message, agreed_message,
            delete_on_agree, welcome_channel_id) := r in
      welcome <- new (WelcomeStorage.__init__ guild welcome_message
                        goodbye_message agreed_message delete_on_agree
                        welcome_channel_id) ;;
      welcome_cache_setitem guild welcome ;;;
      ret welcome.

Definition set_welcome_message (guild : Guild.t) (welcome_message : option str)
  : M unit :=
  sql_execute (UpdateWelcome (Guild.id guild)
                 (Values_welcome_message welcome_message)) ;;;
  storage <- welcome_cache_getitem guild ;;
  setattr storage (WelcomeStorage.set_welcome_message welcome_message).

Definition set_goodbye_message (guild : Guild.t) (goodbye_message : option str)
  : M unit :=
  sql_execute (UpdateWelcome (Guild.id guild)
                 (Values_goodbye_message goodbye_message)) ;;;
  storage <- welcome_cache_getitem guild ;;
  setattr storage (WelcomeStorage.set_goodbye_message goodbye_message).

Definition set_agreed_message (guild : Guild.t) (agreed_message : option str)
  : M unit :=
  sql_execute (UpdateWelcome (Guild.id guild)
                 (Values_agreed_message agreed_message)) ;;;
  storage <- welcome_cache_getitem guild ;;
  setattr storage (WelcomeStorage.set_agreed_message agreed_message).

Definition set_delete_on_agree (guild : Guild.t) (value : bool) : M unit :=
  sql_execute (UpdateWelcome (Guild.id guild) (Values_delete_on_agree value)) ;;;
  storage <- welcome_cache_getitem guild ;;
  setattr storage (WelcomeStorage.set_delete_on_agree value).

(** [assert guild == channel.guild] compares the ids.  (Assertions are
    taken as enabled: the interpreter does not run with [-O].) *)
Definition set_welcome_channel (guild : Guild.t) (channel : option TextChannel.t)
  : M unit :=
  match channel with
  | Some ch => assert (bool_decide (Guild.id guild = TextChannel.guild ch))
  | None => ret tt
  end ;;;
  sql_execute (UpdateWelcome (Guild.id guild)
                 (Values_welcome_channel_id (TextChannel.id <$> channel))) ;;;
  storage <- welcome_cache_getitem guild ;;
  setattr storage (WelcomeStorage.set_welcome_channel channel).

Definition add_alert (guild : Guild.t) (alert : Alert) : M unit :=
  cached <- alerts_cache_getitem guild ;;
  if bool_decide (key alert ∈ cached) then
    sql_execute (UpdateAlert (Guild.id guild) (key alert) (op alert)
                   (str_value (alert_value alert))) ;;;
    ret tt
  else
    sql_execute (InsertAlert (Guild.id guild) (key alert) (op alert)
                   (str_value (alert_value alert))) ;;;
    ret tt.

Definition remove_alert (guild : Guild.t) (key : JoinAlertKey) : M unit :=
  result <- sql_execute (DeleteAlert (Guild.id guild) key) ;;
  n <- lift (call (rowcount result)) ;;
  assert (bool_decide (n = 0 \/ n = 1)%Z).

(** The loop of [get_all_alerts] over the fetched rows. *)
Fixpoint alerts_of (fetched : list row)
    (alerts : list (JoinAlertKey * ValueRelationship * value))
  : outcome (list (JoinAlertKey * ValueRelationship * value)) :=
  match fetched with
  | [] => Return alerts
  | r :: fetched' =>
      match unpack3 r with
      | Return (key, op, raw_value) =>
          match parse_value key raw_value with
          | Return value => alerts_of fetched' (alerts ++ [(key, op, value)])
          | Throw e => Throw e
          end
      | Throw e => Throw e
      end
  end.

Definition get_all_alerts (guild : Guild.t)
  : M (list (JoinAlertKey * ValueRelationship * value)) :=
  result <- sql_execute (SelectAlerts (Guild.id guild)) ;;
  lift (alerts_of (rows result) []).

Definition remove_all_alerts (guild : Guild.t) : M unit :=
  sql_execute (DeleteAlerts (Guild.id guild)) ;;;
  ret tt.

End WelcomeModel.

End WelcomeModel.

End Welcome.

(** ** cogs/misc/core.py

    [ping] subtracts the time the message was sent, which
    [discord.utils.snowflake_time] reads off the id of the message, from
    [datetime.now()], and shows the attribute [microseconds] of the
    difference, divided by 1000, as the latency in milliseconds.  The
    embedding has the arithmetic of [datetime] and [timedelta] on
    integers; the clock and [snowflake_time] are inputs, and the reply
    the command sends is not modelled. *)

Module Miscellaneous.

(** [datetime.timedelta]: the three integers an object stores. *)
Record timedelta := { days : Z; seconds : Z; microseconds : Z }.

(** [timedelta(days, seconds, microseconds)] on integers: the
    constructor carries microseconds into seconds and seconds into days
    ([divmod] rounds down). *)
Definition timedelta_new (days seconds microseconds : Z) : timedelta :=
  let seconds := (seconds + microseconds / 1000000)%Z in
  let microseconds := (microseconds mod 1000000)%Z in
  let days := (days + seconds / 86400)%Z in
  let seconds := (seconds mod 86400)%Z in
  {| days := days; seconds := seconds; microseconds := microseconds |}.

(** A naive [datetime.datetime]: the day ([toordinal()]), the second of
    the day ([hour * 3600 + minute * 60 + second]) and [microsecond]. *)
Record datetime := { toordinal : Z; second_of_day : Z; microsecond : Z }.

(** [self - other] on two naive datetimes. *)
Definition datetime_sub (self other : datetime) : timedelta :=
  timedelta_new (toordinal self - toordinal other)
    (second_of_day self - second_of_day other)
    (microsecond self - microsecond other).

Section ping.

(** [discord.utils.snowflake_time]: the time a message id was made at,
    a naive datetime. *)
Variable snowflake_time : Z -> datetime.

(** [duration = datetime.now() - discord.utils.snowflake_time(ctx.message.id)] *)
Definition duration (now : datetime) (message_id : Z) : timedelta :=
  datetime_sub now (snowflake_time message_id).

(** [ms = duration.microseconds / 1000]: the latency [ping] shows, in
    thousandths of a millisecond (the division is exact on the
    rationals; Python rounds the quotient to a float). *)
Definition ping (now : datetime) (message_id : Z) : Z :=
  microseconds (duration now message_id).

End ping.

End Miscellaneous.

(** * Part II: definitions for the statements *)

(** ** Concrete parameters, for evaluating the filter on given phrases *)

(** Case folding on the ASCII letters, the identity elsewhere. *)
Definition ascii_lower (ch : N) : N :=
  if (65 <=? ch) && (ch <=? 90) then ch + 32 else ch.

(** A fake oracle over a hand-picked table: one group per distinct
    character of the text that the table lists, in order of first
    occurrence. *)
Fixpoint table_oracle_from (table : list (N * list str)) (checked : list N)
    (text : str) : list group :=
  match text with
  | [] => []
  | char :: rest =>
      if bool_decide (char ∈ checked) then table_oracle_from table checked rest
      else
        match list_find (fun e => e.1 = char) table with
        | Some (_, (_, found)) =>
            {| character := char; homoglyphs := map (fun h => {| c := h |}) found |}
              :: table_oracle_from table (char :: checked) rest
        | None => table_oracle_from table (char :: checked) rest
        end
  end.

Definition table_oracle (table : list (N * list str)) (text : str) : list group :=
  table_oracle_from table [] text.

(** An oracle that knows no confusable at all. *)
Definition no_confusables : str -> list group := fun _ => [].

(** An oracle that knows one confusable pair: Latin [a] (U+0061) and
    Cyrillic [а] (U+0430). *)
Definition latin_a_oracle : str -> list group :=
  table_oracle [(0x61, [[0x430]])].

(** A matcher of "badword", written out. *)
Definition badword_matcher : Filter.t :=
  {| Filter.text := lit "badword";
     Filter.regex :=
       {| re.pattern := lit "badword"; re.IGNORECASE := true;
          re.code := re.seq_of (map re.Literal (lit "badword")) |} |}.

(** ** Direct substring search *)

(** [s.startswith(p)] and [p in s] on Python strings. *)
Fixpoint startswith (s p : str) {struct p} : bool :=
  match p, s with
  | [], _ => true
  | a :: p', x :: s' => (a =? x) && startswith s' p'
  | _ :: _, [] => false
  end.

Fixpoint contains (s p : str) : bool :=
  startswith s p ||
  match s with
  | [] => false
  | _ :: s' => contains s' p
  end.

(** The spec's direct case-insensitive substring search,
    [p.lower() in content.lower()], with the folding [lower] applied to
    each code point. *)
Definition ci_substring (lower : N -> N) (p content : str) : bool :=
  contains (map lower content) (map lower p).

(** ** The content without the whitespace look-alikes *)

Definition remove_spaces (content : str) : str :=
  filter (fun ch => ch ∉ UNICODE_SPACES) content.

(** ** Patterns made of single-character items *)

Definition unit_item (r : re.regex) : bool :=
  match r with re.Literal _ | re.In _ _ => true | _ => false end.

(** The code point [x] is accepted by the single-character item [r]. *)
Definition accepts (lower : N -> N) (ic : bool) (r : re.regex) (x : N) : bool :=
  match r with
  | re.Literal ch => re.chr_eq lower ic ch x
  | re.In negate its => re.in_set lower ic negate its x
  | _ => false
  end.

(** The items accept the first code points of [s], one each; what is
    left of [s]. *)
Fixpoint match_units (lower : N -> N) (ic : bool) (rs : list re.regex) (s : str)
  : option str :=
  match rs, s with
  | [], _ => Some s
  | r :: rs', x :: s' =>
      if accepts lower ic r x then match_units lower ic rs' s' else None
  | _ :: _, [] => None
  end.

(** The loop of a greedy repeat in [re.exec], with its fuel. *)
Definition repeat_loop (lower : N -> N) (ic : bool) (r1 : re.regex)
    (k : nat -> str -> option nat) : nat -> nat -> str -> option nat :=
  fix loop (n : nat) (pos : nat) (s : str) : option nat :=
    match
      match n with
      | S n' =>
          re.exec lower ic r1 pos s
            (fun pos' s' => if Nat.ltb pos pos' then loop n' pos' s' else None)
      | O => None
      end
    with
    | Some e => Some e
    | None => k pos s
    end.

(** ** [build_regex] as a function of the groups *)

(** The members of the class written for a group: the character, then
    the code points of its homoglyphs. *)
Definition class_items (g : group) : list N :=
  character g :: concat (map c (homoglyphs g)).

Definition class_of (g : group) : str :=
  lit "[" ++ re.escape (class_items g) ++ lit "]".

(** The dict [chars] after the first loop. *)
Definition class_table (groups : list group) : gmap N str :=
  foldl (fun chars g => <[character g := class_of g]> chars) ∅ groups.

(** The fragment written for one character of the text. *)
Definition fragment (groups : list group) (char : N) : str :=
  default [char] (class_table groups !! char).

(** The group whose class [chars] holds for a character: the last one
    the oracle listed for it. *)
Fixpoint group_of (groups : list group) (char : N) : option group :=
  match groups with
  | [] => None
  | g :: groups' =>
      match group_of groups' char with
      | Some g' => Some g'
      | None => if bool_decide (character g = char) then Some g else None
      end
  end.

(** The metacharacters of the parser outside a set
    (sre_parse.SPECIAL_CHARS). *)
Definition is_meta (ch : N) : bool := existsb (N.eqb ch) (lit ".\[{()*+?^$|").

(** The item the pattern holds for a character of the text, when the
    character has a group or is not a metacharacter. *)
Definition node_of (groups : list group) (char : N) : re.regex :=
  match group_of groups char with
  | Some g => re.In false (class_items g)
  | None => re.Literal char
  end.

(** A character of the text that has no group and is a metacharacter:
    [build_regex] writes it into the pattern as it is. *)
Definition bare_meta (groups : list group) (char : N) : bool :=
  is_meta char && negb (bool_decide (is_Some (group_of groups char))).

Definition no_bare_meta (groups : list group) (text : str) : bool :=
  forallb (fun char => negb (bare_meta groups char)) text.

(** The phrase reaches [re.compile] with no metacharacter left bare: the
    oracle answered with no group (the phrase is escaped as a whole), or
    every metacharacter of the phrase has a group. *)
Definition well_escaped (is_confusable : str -> list group) (text : str) : bool :=
  bool_decide (is_confusable text = [])
  || no_bare_meta (is_confusable text) text.

(** ** Patterns with no repeat and no group *)









(** ** The strings a matcher is built to find *)




(** ** The welcome model: settings, calls, and what the caches keep *)

Section Welcome_statements.
Import Welcome.

Context {JoinAlertKey : Type} `{!EqDecision JoinAlertKey, !Countable JoinAlertKey}.
Context {ValueRelationship value connection : Type}.

#[local] Abbreviation statement := (@WelcomeModel.statement JoinAlertKey ValueRelationship).
#[local] Abbreviation ResultProxy := (@WelcomeModel.ResultProxy JoinAlertKey ValueRelationship).
#[local] Abbreviation Alert := (@WelcomeModel.Alert JoinAlertKey ValueRelationship value).
#[local] Abbreviation model := (@WelcomeModel.t JoinAlertKey _ _ connection).
#[local] Abbreviation M := (@WelcomeModel.M JoinAlertKey _ _ connection).

Variable str_value : value -> str.
Variable parse_value : JoinAlertKey -> str -> outcome value.
Variable execute : statement -> connection -> connection * outcome ResultProxy.

(** The five setters of the model, as one family: what is set, the
    method that sets it, the assignment the method makes on the cached
    storage, the UPDATE it runs, and the assertion it makes first. *)
Inductive setting :=
| Welcome_message (welcome_message : option str)
| Goodbye_message (goodbye_message : option str)
| Agreed_message (agreed_message : option str)
| Delete_on_agree (value : bool)
| Welcome_channel (channel : option TextChannel.t).

Definition set_setting (guild : Guild.t) (s : setting) : M unit :=
  match s with
  | Welcome_message v => WelcomeModel.set_welcome_message execute guild v
  | Goodbye_message v => WelcomeModel.set_goodbye_message execute guild v
  | Agreed_message v => WelcomeModel.set_agreed_message execute guild v
  | Delete_on_agree v => WelcomeModel.set_delete_on_agree execute guild v
  | Welcome_channel channel => WelcomeModel.set_welcome_channel execute guild channel
  end.

Definition assignment (s : setting) : WelcomeStorage.t -> WelcomeStorage.t :=
  match s with
  | Welcome_message v => WelcomeStorage.set_welcome_message v
  | Goodbye_message v => WelcomeStorage.set_goodbye_message v
  | Agreed_message v => WelcomeStorage.set_agreed_message v
  | Delete_on_agree v => WelcomeStorage.set_delete_on_agree v
  | Welcome_channel channel => WelcomeStorage.set_welcome_channel channel
  end.

Definition values_of (s : setting) : WelcomeModel.values :=
  match s with
  | Welcome_message v => WelcomeModel.Values_welcome_message v
  | Goodbye_message v => WelcomeModel.Values_goodbye_message v
  | Agreed_message v => WelcomeModel.Values_agreed_message v
  | Delete_on_agree v => WelcomeModel.Values_delete_on_agree v
  | Welcome_channel channel =>
      WelcomeModel.Values_welcome_channel_id (TextChannel.id <$> channel)
  end.

Definition update_of (guild : Guild.t) (s : setting) : statement :=
  WelcomeModel.UpdateWelcome (Guild.id guild) (values_of s).

(** The assertion of [set_welcome_channel] holds: the channel, if any,
    is a channel of the guild. *)
Definition asserted (guild : Guild.t) (s : setting) : bool :=
  match s with
  | Welcome_channel (Some ch) => bool_decide (Guild.id guild = TextChannel.guild ch)
  | _ => true
  end.

(** A call of a method of the model. *)
Inductive call :=
| Add_welcome (guild : Guild.t)
| Remove_welcome (guild : Guild.t)
| Get_welcome (guild : Guild.t)
| Set_setting (guild : Guild.t) (s : setting)
| Add_alert (guild : Guild.t) (alert : Alert)
| Remove_alert (guild : Guild.t) (key : JoinAlertKey)
| Get_all_alerts (guild : Guild.t)
| Remove_all_alerts (guild : Guild.t).

(** The state of the model after a call, whether the call returned or
    raised. *)
Definition state_after (c : call) (self : model) : model :=
  match c with
  | Add_welcome guild => (WelcomeModel.add_welcome execute guild self).1
  | Remove_welcome guild => (WelcomeModel.remove_welcome execute guild self).1
  | Get_welcome guild => (WelcomeModel.get_welcome execute guild self).1
  | Set_setting guild s => (set_setting guild s self).1
  | Add_alert guild alert => (WelcomeModel.add_alert str_value execute guild alert self).1
  | Remove_alert guild key => (WelcomeModel.remove_alert execute guild key self).1
  | Get_all_alerts guild => (WelcomeModel.get_all_alerts parse_value execute guild self).1
  | Remove_all_alerts guild => (WelcomeModel.remove_all_alerts execute guild self).1
  end.

Definition run (calls : list call) (self : model) : model :=
  foldl (fun self c => state_after c self) self calls.

(** What the caches keep: a cached reference leads to a storage object
    of the guild it is cached for, and the dicts of [alerts_cache] are
    empty. *)
Definition caches_ok (self : model) : Prop :=
  (forall guild_id ref,
     WelcomeModel.welcome_cache self !! guild_id = Some ref ->
     exists storage,
       WelcomeModel.heap self !! ref = Some storage
       /\ Guild.id (WelcomeStorage.guild storage) = guild_id)
  /\ (forall guild_id d,
        WelcomeModel.alerts_cache self !! guild_id = Some d -> d = ∅).

(** The alert that [get_all_alerts] makes of a fetched row: the key and
    the relationship of the row, and the value its key parses out of the
    stored string. *)
Definition alert_of_row (r : @WelcomeModel.row JoinAlertKey ValueRelationship)
    (alert : JoinAlertKey * ValueRelationship * value) : Prop :=
  exists raw_value,
    r = WelcomeModel.AlertRow alert.1.1 alert.1.2 raw_value
    /\ parse_value alert.1.1 raw_value = Return alert.2.

(** The state with another state of the connection. *)
Definition with_sql (conn : connection) (self : model) : model :=
  {| WelcomeModel.sql := conn;
     WelcomeModel.heap := WelcomeModel.heap self;
     WelcomeModel.welcome_cache := WelcomeModel.welcome_cache self;
     WelcomeModel.alerts_cache := WelcomeModel.alerts_cache self |}.

(** What a method called for the guild [guild_id] may do to the heap and
    to the caches, between the state [self] it starts in and the state
    [self'] it ends in: an object keeps its guild, and only the object
    cached for the guild changes; of [welcome_cache] only the entry of
    the guild changes, and a new entry refers to a new object of the
    guild; a dict of [alerts_cache] is one that was there, or is empty. *)
Definition evolves (guild_id : Z) (self self' : model) : Prop :=
  (forall ref storage,
     WelcomeModel.heap self !! ref = Some storage ->
     exists storage',
       WelcomeModel.heap self' !! ref = Some storage'
       /\ WelcomeStorage.guild storage' = WelcomeStorage.guild storage
       /\ (storage' = storage
           \/ WelcomeModel.welcome_cache self !! guild_id = Some ref))
  /\ (forall guild_id',
        guild_id' <> guild_id ->
        WelcomeModel.welcome_cache self' !! guild_id'
        = WelcomeModel.welcome_cache self !! guild_id')
  /\ (WelcomeModel.welcome_cache self' !! guild_id
      = WelcomeModel.welcome_cache self !! guild_id
      \/ WelcomeModel.welcome_cache self' !! guild_id = None
      \/ exists ref storage,
           WelcomeModel.welcome_cache self' !! guild_id = Some ref
           /\ (length (WelcomeModel.heap self) <= ref)%nat
           /\ WelcomeModel.heap self' !! ref = Some storage
           /\ Guild.id (WelcomeStorage.guild storage) = guild_id)
  /\ (forall guild_id' d,
        WelcomeModel.alerts_cache self' !! guild_id' = Some d ->
        d = ∅ \/ WelcomeModel.alerts_cache self !! guild_id' = Some d).

(** The guild a call is made for. *)
Definition guild_of (c : call) : Guild.t :=
  match c with
  | Add_welcome guild | Remove_welcome guild | Get_welcome guild
  | Set_setting guild _ | Add_alert guild _ | Remove_alert guild _
  | Get_all_alerts guild | Remove_all_alerts guild => guild
  end.

(** The storage object behind [ref] is no longer in the cache. *)
Definition detached (ref : nat) (self : model) : Prop :=
  (ref < length (WelcomeModel.heap self))%nat
  /\ forall guild_id ref',
       WelcomeModel.welcome_cache self !! guild_id = Some ref' -> ref' <> ref.

End Welcome_statements.

(** ** A reference database for the two tables

    The database is not part of the program.  Where a property needs one,
    it is this one: the two tables as [WelcomeModel.__init__] declares
    them, by their primary keys ([guild_id]; [guild_id] and
    [alert_key]).  An INSERT of a key that is there raises
    [IntegrityError]; UPDATE and DELETE act on the rows the condition
    selects; a result reports the number of its rows or of the rows
    changed as [rowcount], an integer, as the PostgreSQL driver does.
    [InsertWelcome] leaves the column [agreed_message] NULL, and a channel
    object is no value for the column [welcome_message].  (The foreign
    keys into the table [guilds] are not checked.) *)

Module ReferenceDB.

Section ReferenceDB.
Import Welcome.

Context {JoinAlertKey : Type} `{!EqDecision JoinAlertKey, !Countable JoinAlertKey}.
Context {ValueRelationship : Type}.

#[local] Abbreviation statement := (@WelcomeModel.statement JoinAlertKey ValueRelationship).
#[local] Abbreviation ResultProxy := (@WelcomeModel.ResultProxy JoinAlertKey ValueRelationship).
#[local] Abbreviation row := (@WelcomeModel.row JoinAlertKey ValueRelationship).

Definition welcome_columns : Type :=
  option str * option str * option str * bool * option Z.

Record t := {
  welcome : gmap Z welcome_columns;
  join_alerts : gmap (Z * JoinAlertKey) (ValueRelationship * str)
}.

Definition changed (n : nat) : outcome ResultProxy :=
  Return {| WelcomeModel.rowcount := WelcomeModel.IntAttr (Z.of_nat n);
            WelcomeModel.rows := [] |}.

Definition selected (rows : list row) : outcome ResultProxy :=
  Return {| WelcomeModel.rowcount := WelcomeModel.IntAttr (Z.of_nat (length rows));
            WelcomeModel.rows := rows |}.

Definition welcome_row (columns : welcome_columns) : row :=
  let '(wm, gm, am, doa, wcid) := columns in WelcomeModel.WelcomeRow wm gm am doa wcid.

Definition update (v : WelcomeModel.values) (columns : welcome_columns)
  : welcome_columns :=
  let '(wm, gm, am, doa, wcid) := columns in
  match v with
  | WelcomeModel.Values_welcome_message x => (x, gm, am, doa, wcid)
  | WelcomeModel.Values_goodbye_message x => (wm, x, am, doa, wcid)
  | WelcomeModel.Values_agreed_message x => (wm, gm, x, doa, wcid)
  | WelcomeModel.Values_delete_on_agree x => (wm, gm, am, x, wcid)
  | WelcomeModel.Values_welcome_channel_id x => (wm, gm, am, doa, x)
  end.

Definition count {A} (x : option A) : nat :=
  match x with Some _ => 1 | None => 0 end.

(** The rows of [join_alerts] of a guild. *)
Definition alerts_of_guild (guild_id : Z) (db : t)
  : list (Z * JoinAlertKey * (ValueRelationship * str)) :=
  filter (fun entry => entry.1.1 = guild_id) (map_to_list (join_alerts db)).

Definition execute (stmt : statement) (db : t) : t * outcome ResultProxy :=
  match stmt with
  | WelcomeModel.InsertWelcome guild_id wm gm doa wcid =>
      match wm, welcome db !! guild_id with
      | Some _, _ => (db, Throw (DatabaseError 0))
      | None, Some _ => (db, Throw IntegrityError)
      | None, None =>
          ({| welcome := <[guild_id := (None, gm, None, doa, wcid)]> (welcome db);
              join_alerts := join_alerts db |}, changed 1)
      end
  | WelcomeModel.DeleteWelcome guild_id =>
      ({| welcome := delete guild_id (welcome db); join_alerts := join_alerts db |},
       changed (count (welcome db !! guild_id)))
  | WelcomeModel.SelectWelcome guild_id =>
      (db, selected (option_list (welcome_row <$> welcome db !! guild_id)))
  | WelcomeModel.UpdateWelcome guild_id v =>
      ({| welcome := alter (update v) guild_id (welcome db);
          join_alerts := join_alerts db |},
       changed (count (welcome db !! guild_id)))
  | WelcomeModel.InsertAlert guild_id alert_key op value =>
      match join_alerts db !! (guild_id, alert_key) with
      | Some _ => (db, Throw IntegrityError)
      | None =>
          ({| welcome := welcome db;
              join_alerts := <[(guild_id, alert_key) := (op, value)]> (join_alerts db) |},
           changed 1)
      end
  | WelcomeModel.UpdateAlert guild_id alert_key op value =>
      ({| welcome := welcome db;
          join_alerts := alter (fun _ => (op, value)) (guild_id, alert_key)
                           (join_alerts db) |},
       changed (count (join_alerts db !! (guild_id, alert_key))))
  | WelcomeModel.DeleteAlert guild_id alert_key =>
      ({| welcome := welcome db;
          join_alerts := delete (guild_id, alert_key) (join_alerts db) |},
       changed (count (join_alerts db !! (guild_id, alert_key))))
  | WelcomeModel.SelectAlerts guild_id =>
      (db, selected
             (map (fun entry : Z * JoinAlertKey * (ValueRelationship * str) =>
                     WelcomeModel.AlertRow entry.1.2 entry.2.1 entry.2.2)
                (alerts_of_guild guild_id db)))
  | WelcomeModel.DeleteAlerts guild_id =>
      ({| welcome := welcome db;
          join_alerts := filter (fun entry => entry.1.1 <> guild_id) (join_alerts db) |},
       changed (length (alerts_of_guild guild_id db)))
  end.

End ReferenceDB.

End ReferenceDB.

(** ** The cache against the reference database *)

Section Coherence.
Import Welcome.

Context {JoinAlertKey : Type} `{!EqDecision JoinAlertKey, !Countable JoinAlertKey}.
Context {ValueRelationship : Type}.

(** The row of the table [welcome] that holds the attributes of a
    storage, with a given channel id. *)
Definition columns_of (storage : WelcomeStorage.t) (welcome_channel_id : option Z)
  : ReferenceDB.welcome_columns :=
  (WelcomeStorage.welcome_message storage, WelcomeStorage.goodbye_message storage,
   WelcomeStorage.agreed_message storage, WelcomeStorage.delete_on_agree storage,
   welcome_channel_id).

(** Every cached storage has its row: the row holds the three messages
    and the flag of the storage, and the id of its channel when it has
    one. *)
Definition coherent
    (self : @WelcomeModel.t JoinAlertKey _ _
              (@ReferenceDB.t JoinAlertKey _ _ ValueRelationship)) : Prop :=
  forall guild_id ref storage,
    WelcomeModel.welcome_cache self !! guild_id = Some ref ->
    WelcomeModel.heap self !! ref = Some storage ->
    exists welcome_channel_id,
      ReferenceDB.welcome (WelcomeModel.sql self) !! guild_id
      = Some (columns_of storage welcome_channel_id)
      /\ (WelcomeStorage.welcome_channel storage = None
          \/ WelcomeStorage.channel_id storage = welcome_channel_id).

End Coherence.

(** ** Concrete values, for evaluating the model *)

Definition general : Welcome.TextChannel.t :=
  {| Welcome.TextChannel.id := 20; Welcome.TextChannel.name := lit "general";
     Welcome.TextChannel.guild := 1 |}.

Definition programming : Welcome.Guild.t :=
  {| Welcome.Guild.id := 1; Welcome.Guild.name := lit "Programming";
     Welcome.Guild.text_channels := [general] |}.

(** Alerts with numbers for keys, relationships and values. *)
Definition number_str (n : N) : str := [48 + n].

Definition number_parse (key : N) (raw : str) : Welcome.outcome N :=
  match raw with
  | [d] => Welcome.Return (d - 48)
  | _ => Welcome.Throw Welcome.ValueError
  end.

Definition empty_db : @ReferenceDB.t N _ _ N :=
  {| ReferenceDB.welcome := ∅; ReferenceDB.join_alerts := ∅ |}.

(** A new model on the empty database. *)
Definition new_model
  : @Welcome.WelcomeModel.t N _ _ (@ReferenceDB.t N _ _ N) :=
  Welcome.WelcomeModel.__init__ empty_db.

(** The model after [get_welcome] for the guild. *)
Definition welcomed
  : @Welcome.WelcomeModel.t N _ _ (@ReferenceDB.t N _ _ N) :=
  (Welcome.WelcomeModel.get_welcome ReferenceDB.execute programming new_model).1.

(** A new model on the database [welcomed] leaves: the bot started
    again. *)
Definition restarted
  : @Welcome.WelcomeModel.t N _ _ (@ReferenceDB.t N _ _ N) :=
  Welcome.WelcomeModel.__init__ (Welcome.WelcomeModel.sql welcomed).

(** ** The time between two datetimes *)

(** The microseconds from the start of the calendar to a datetime. *)
Definition total_microseconds (d : Miscellaneous.datetime) : Z :=
  ((Miscellaneous.toordinal d * 86400 + Miscellaneous.second_of_day d) * 1000000
   + Miscellaneous.microsecond d)%Z.

(** * Part III: lemmas *)

(** ** The parser on escaped text *)

Section Parser_facts.
Import re.

Lemma feed_app st a b :
  feed st (a ++ b) = let* st' := feed st a in feed st' b.
Proof.
  revert st. induction a as [|x a IH]; intros st; simpl; [reflexivity|].
  destruct (step st x); simpl; auto.
Qed.

Lemma escape_app a b : escape (a ++ b) = escape a ++ escape b.
Proof. unfold escape. apply flat_map_app. Qed.

Lemma escape_cons x a : escape (x :: a) = escape_char x ++ escape a.
Proof. reflexivity. Qed.

Lemma escape_concat l : escape (concat l) = concat (map escape l).
Proof.
  induction l as [|a l IH]; [reflexivity|].
  simpl. rewrite escape_app, IH. reflexivity.
Qed.

Lemma existsb_false_neq (l : list N) ch x :
  existsb (N.eqb ch) l = false -> List.In x l -> (ch =? x) = false.
Proof.
  intros H Hin. destruct (ch =? x) eqn:E; [|reflexivity].
  rewrite <- H. symmetry. apply existsb_exists. eauto.
Qed.

(** What [re.escape] leaves alone is no metacharacter of the parser, in a
    set or outside; what it escapes is not alphanumeric. *)
Lemma not_special_neq ch x :
  is_special ch = false -> List.In x special_chars -> (ch =? x) = false.
Proof. apply existsb_false_neq. Qed.

Lemma special_not_alnum ch : is_special ch = true -> is_ascii_alnum ch = false.
Proof.
  unfold is_special. intros H. apply existsb_exists in H as (x & Hin & E).
  apply N.eqb_eq in E. subst x.
  vm_compute in Hin.
  repeat (destruct Hin as [<-|Hin]; [reflexivity|]). destruct Hin.
Qed.

Lemma not_special_not_meta ch : is_special ch = false -> is_meta ch = false.
Proof.
  intros H. unfold is_meta. destruct (existsb _ _) eqn:E; [|reflexivity].
  apply existsb_exists in E as (x & Hin & E).
  rewrite (not_special_neq ch x H) in E; [discriminate|].
  vm_compute in Hin. vm_compute. tauto.
Qed.

Lemma step_pattern_literal stk f ch :
  is_meta ch = false ->
  step_pattern stk f ch = Ok (PState stk (push (Literal ch) f) InPattern).
Proof.
  unfold is_meta. intros H. unfold step_pattern.
  repeat match goal with
  | |- context [ch =? ?x] =>
      rewrite (existsb_false_neq _ ch x H) by (vm_compute; tauto)
  end.
  reflexivity.
Qed.

Lemma feed_escape_char stk f ch :
  feed (PState stk f InPattern) (escape_char ch)
  = Ok (PState stk (push (Literal ch) f) InPattern).
Proof.
  unfold escape_char. destruct (is_special ch) eqn:E; simpl.
  - unfold step; simpl. rewrite (special_not_alnum _ E). reflexivity.
  - unfold step; simpl.
    rewrite (step_pattern_literal _ _ _ (not_special_not_meta _ E)). reflexivity.
Qed.

Lemma feed_escape stk f p :
  feed (PState stk f InPattern) (escape p)
  = Ok (PState stk (Frame (branches f) (rev (map Literal p) ++ items f)) InPattern).
Proof.
  revert f. induction p as [|ch p IH]; intros f.
  - destruct f; reflexivity.
  - rewrite escape_cons, feed_app, feed_escape_char. simpl bind.
    rewrite IH. simpl. rewrite <- app_assoc. reflexivity.
Qed.

(** An escaped phrase parses to the sequence of its code points. *)
Lemma parse_escape p : parse (escape p) = Ok (seq_of (map Literal p)).
Proof.
  unfold parse. rewrite feed_escape. cbn [bind finish pmode stack cur].
  unfold close_frame. cbn [items branches empty_frame foldl].
  rewrite app_nil_r, rev_involutive. reflexivity.
Qed.

(** The members of a class, escaped, up to the closing bracket. *)
Lemma feed_set_items stk f negate its : forall acc code1,
  feed (PState stk f (SetItem negate acc code1)) (escape its ++ lit "]")
  = Ok (PState stk (push (In negate (rev acc ++ code1 :: its)) f) InPattern).
Proof.
  induction its as [|i its IH]; intros acc code1.
  - reflexivity.
  - rewrite escape_cons, <- app_assoc. unfold escape_char.
    destruct (is_special i) eqn:E.
    + cbn [app feed]. unfold step at 1. cbn [pmode stack cur].
      change (92 =? 45) with false. cbv iota.
      unfold step_set. change (92 =? 93) with false. cbn [andb].
      change (92 =? 92) with true. cbv iota. cbn [bind].
      unfold step at 1. cbn [pmode stack cur].
      rewrite (special_not_alnum _ E). cbn [bind].
      rewrite IH. cbn [rev]. rewrite <- app_assoc. reflexivity.
    + cbn [app feed]. unfold step at 1. cbn [pmode stack cur].
      rewrite (not_special_neq i 45 E) by (vm_compute; tauto).
      unfold step_set.
      rewrite (not_special_neq i 93 E) by (vm_compute; tauto).
      rewrite (not_special_neq i 92 E) by (vm_compute; tauto).
      cbn [andb bind]. rewrite IH. cbn [rev]. rewrite <- app_assoc. reflexivity.
Qed.

(** The class written for a group parses to a set of its members. *)
Lemma feed_class stk f g :
  feed (PState stk f InPattern) (class_of g)
  = Ok (PState stk (push (In false (class_items g)) f) InPattern).
Proof.
  unfold class_of, class_items.
  set (i := character g). set (its := concat (map c (homoglyphs g))).
  change (lit "[") with [91]. rewrite escape_cons, <- app_assoc.
  cbn [app feed]. unfold step at 1. cbn [pmode stack cur].
  change (step_pattern stk f 91) with (Ok (PState stk f SetOpen)). cbn [bind].
  unfold escape_char. destruct (is_special i) eqn:E.
  - cbn [app feed]. unfold step at 1. cbn [pmode stack cur].
    change (92 =? 94) with false. cbv iota.
    change (step_set stk f false [] 92) with (Ok (PState stk f (SetEscape false []))).
    cbn [bind]. unfold step at 1. cbn [pmode stack cur].
    rewrite (special_not_alnum _ E). cbn [bind].
    apply (feed_set_items stk f false its [] i).
  - cbn [app feed]. unfold step at 1. cbn [pmode stack cur].
    rewrite (not_special_neq i 94 E) by (vm_compute; tauto).
    unfold step_set.
    rewrite (not_special_neq i 92 E) by (vm_compute; tauto).
    rewrite andb_false_r. cbn [bind].
    apply (feed_set_items stk f false its [] i).
Qed.

End Parser_facts.

(** ** The engine *)

Section Matching_facts.
Import re.

Variable lower : N -> N.
Variable ic : bool.

(** [exec] calls its continuation on suffixes of the subject only, at the
    offsets they start at. *)
Lemma exec_ext r : forall pos s k1 k2,
  (forall pos' s',
     (pos' + length s' = pos + length s)%nat -> (pos <= pos')%nat ->
     k1 pos' s' = k2 pos' s') ->
  exec lower ic r pos s k1 = exec lower ic r pos s k2.
Proof.
  induction r as [|ch| |negate its| | |r1 IH1 r2 IH2|r1 IH1 r2 IH2|q r1 IH1|r1 IH1];
    intros pos s k1 k2 H; cbn [exec].
  - apply H; lia.
  - destruct s as [|x s]; [reflexivity|].
    destruct (chr_eq lower ic ch x); [|reflexivity]. apply H; simpl; lia.
  - destruct s as [|x s]; [reflexivity|].
    destruct (x =? 10); [reflexivity|]. apply H; simpl; lia.
  - destruct s as [|x s]; [reflexivity|].
    destruct (in_set lower ic negate its x); [|reflexivity]. apply H; simpl; lia.
  - destruct (Nat.eqb pos 0); [|reflexivity]. apply H; lia.
  - destruct s as [|x [|y s]]; [apply H; lia| |reflexivity].
    destruct (x =? 10); [|reflexivity]. apply H; lia.
  - apply IH1. intros pos' s' E L. apply IH2. intros pos'' s'' E' L'. apply H; lia.
  - rewrite (IH1 pos s k1 k2 H), (IH2 pos s k1 k2 H). reflexivity.
  - fold (repeat_loop lower ic r1 k1). fold (repeat_loop lower ic r1 k2).
    assert (Hloop : forall n pos' s',
              (pos' + length s' = pos + length s)%nat -> (pos <= pos')%nat ->
              repeat_loop lower ic r1 k1 n pos' s'
              = repeat_loop lower ic r1 k2 n pos' s').
    { induction n as [|n IHn]; intros pos' s' E L.
      - cbn. apply H; lia.
      - cbn [repeat_loop].
        rewrite (IH1 pos' s' _
                   (fun pos'' s'' =>
                      if Nat.ltb pos' pos''
                      then repeat_loop lower ic r1 k2 n pos'' s'' else None)).
        + rewrite (H pos' s') by lia. reflexivity.
        + intros pos'' s'' E' L'. destruct (Nat.ltb pos' pos''); [|reflexivity].
          apply IHn; lia. }
    destruct q.
    + apply Hloop; lia.
    + apply IH1. intros pos' s' E L. apply Hloop; lia.
    + rewrite (IH1 pos s k1 k2 H), (H pos s) by lia. reflexivity.
  - apply IH1, H.
Qed.

Lemma exec_none r : forall pos s, exec lower ic r pos s (fun _ _ => None) = None.
Proof.
  induction r as [|ch| |negate its| | |r1 IH1 r2 IH2|r1 IH1 r2 IH2|q r1 IH1|r1 IH1];
    intros pos s; cbn [exec]; auto.
  - destruct s as [|x s]; [reflexivity|]. destruct (chr_eq lower ic ch x); reflexivity.
  - destruct s as [|x s]; [reflexivity|]. destruct (x =? 10); reflexivity.
  - destruct s as [|x s]; [reflexivity|].
    destruct (in_set lower ic negate its x); reflexivity.
  - destruct (Nat.eqb pos 0); reflexivity.
  - destruct s as [|x [|y s]]; [reflexivity| |reflexivity].
    destruct (x =? 10); reflexivity.
  - transitivity (exec lower ic r1 pos s (fun _ _ => None)); [|apply IH1].
    apply exec_ext. intros. apply IH2.
  - rewrite IH1, IH2. reflexivity.
  - fold (repeat_loop lower ic r1 (fun _ _ => None)).
    assert (Hloop : forall n pos s,
              repeat_loop lower ic r1 (fun _ _ => None) n pos s = None).
    { induction n as [|n IHn]; intros pos' s'; [reflexivity|].
      cbn [repeat_loop].
      rewrite (exec_ext r1 pos' s' _ (fun _ _ => None)), IH1; [reflexivity|].
      intros pos'' s'' _ _. rewrite IHn. destruct (Nat.ltb pos' pos''); reflexivity. }
    destruct q.
    + apply Hloop.
    + transitivity (exec lower ic r1 pos s (fun _ _ => None)); [|apply IH1].
      apply exec_ext. intros. apply Hloop.
    + rewrite IH1. reflexivity.
Qed.

(** The loop of a repeat never runs out of fuel: any fuel that covers the
    rest of the subject gives the same result. *)
Lemma repeat_loop_fuel r1 k : forall n m pos s,
  (length s <= n)%nat -> (length s <= m)%nat ->
  repeat_loop lower ic r1 k n pos s = repeat_loop lower ic r1 k m pos s.
Proof.
  assert (Hempty : forall n pos, repeat_loop lower ic r1 k n pos [] = k pos []).
  { intros [|n] pos; [reflexivity|]. cbn [repeat_loop].
    rewrite (exec_ext r1 pos [] _ (fun _ _ => None)), exec_none; [reflexivity|].
    intros pos' s' E L. simpl in E.
    replace (Nat.ltb pos pos') with false; [reflexivity|].
    symmetry. apply Nat.ltb_ge. lia. }
  induction n as [|n IHn]; intros m pos s Hn Hm.
  - destruct s; [|simpl in Hn; lia]. rewrite !Hempty. reflexivity.
  - destruct m as [|m].
    + destruct s; [|simpl in Hm; lia]. rewrite !Hempty. reflexivity.
    + cbn [repeat_loop].
      rewrite (exec_ext r1 pos s _
                 (fun pos' s' =>
                    if Nat.ltb pos pos'
                    then repeat_loop lower ic r1 k m pos' s' else None));
        [reflexivity|].
      intros pos' s' E L. destruct (Nat.ltb_spec pos pos'); [|reflexivity].
      apply IHn; lia.
Qed.

(** A greedy star takes an iteration that consumes something and goes
    on, or stops: the equation of the loop, free of its fuel. *)
Lemma exec_star r1 pos s k :
  exec lower ic (Repeat ZeroOrMore r1) pos s k
  = match
      exec lower ic r1 pos s
        (fun pos' s' =>
           if Nat.ltb pos pos'
           then exec lower ic (Repeat ZeroOrMore r1) pos' s' k
           else None)
    with
    | Some e => Some e
    | None => k pos s
    end.
Proof.
  change (exec lower ic (Repeat ZeroOrMore r1) pos s k)
    with (repeat_loop lower ic r1 k (length s) pos s).
  rewrite (repeat_loop_fuel r1 k (length s) (S (length s)) pos s) by lia.
  cbn [repeat_loop]. fold (repeat_loop lower ic r1 k).
  rewrite (exec_ext r1 pos s _
             (fun pos' s' =>
                if Nat.ltb pos pos'
                then exec lower ic (Repeat ZeroOrMore r1) pos' s' k
                else None)); [reflexivity|].
  intros pos' s' E L. destruct (Nat.ltb_spec pos pos'); [|reflexivity].
  change (exec lower ic (Repeat ZeroOrMore r1) pos' s' k)
    with (repeat_loop lower ic r1 k (length s') pos' s').
  apply repeat_loop_fuel; lia.
Qed.

Lemma exec_plus r1 pos s k :
  exec lower ic (Repeat OneOrMore r1) pos s k
  = exec lower ic r1 pos s
      (fun pos' s' => exec lower ic (Repeat ZeroOrMore r1) pos' s' k).
Proof. reflexivity. Qed.

(** What [exec] returns, its continuation returned, on a suffix of the
    subject. *)
Lemma exec_result r : forall pos s k e,
  exec lower ic r pos s k = Some e ->
  exists pos' s',
    (pos' + length s' = pos + length s)%nat /\ (pos <= pos')%nat
    /\ k pos' s' = Some e.
Proof.
  induction r as [|ch| |negate its| | |r1 IH1 r2 IH2|r1 IH1 r2 IH2|q r1 IH1|r1 IH1];
    intros pos s k e; cbn [exec].
  - intros H. exists pos, s. auto.
  - destruct s as [|x s]; [discriminate|].
    destruct (chr_eq lower ic ch x); [|discriminate].
    intros H. exists (S pos), s. simpl. split; [lia|]. split; [lia|exact H].
  - destruct s as [|x s]; [discriminate|]. destruct (x =? 10); [discriminate|].
    intros H. exists (S pos), s. simpl. split; [lia|]. split; [lia|exact H].
  - destruct s as [|x s]; [discriminate|].
    destruct (in_set lower ic negate its x); [|discriminate].
    intros H. exists (S pos), s. simpl. split; [lia|]. split; [lia|exact H].
  - destruct (Nat.eqb pos 0); [|discriminate]. intros H. exists pos, s. auto.
  - destruct s as [|x [|y s]]; [| |discriminate].
    + intros H. exists pos, []. auto.
    + destruct (x =? 10); [|discriminate]. intros H. exists pos, [x]. auto.
  - intros H. apply IH1 in H as (p1 & s1 & E1 & L1 & H).
    apply IH2 in H as (p2 & s2 & E2 & L2 & H).
    exists p2, s2. split; [lia|]. split; [lia|exact H].
  - destruct (exec lower ic r1 pos s k) eqn:E1.
    + intros [= <-]. apply (IH1 _ _ _ _ E1).
    + apply IH2.
  - fold (repeat_loop lower ic r1 k).
    assert (Hloop : forall n pos s,
              repeat_loop lower ic r1 k n pos s = Some e ->
              exists pos' s',
                (pos' + length s' = pos + length s)%nat /\ (pos <= pos')%nat
                /\ k pos' s' = Some e).
    { induction n as [|n IHn]; intros p0 s0; cbn [repeat_loop].
      - intros H. exists p0, s0. auto.
      - destruct (exec lower ic r1 p0 s0 _) as [e'|] eqn:E1.
        + intros [= ->]. apply IH1 in E1 as (p1 & s1 & Eq1 & L1 & H).
          destruct (Nat.ltb p0 p1); [|discriminate].
          apply IHn in H as (p2 & s2 & Eq2 & L2 & H).
          exists p2, s2. split; [lia|]. split; [lia|exact H].
        + intros H. exists p0, s0. auto. }
    destruct q.
    + apply Hloop.
    + intros H. apply IH1 in H as (p1 & s1 & Eq1 & L1 & H).
      apply Hloop in H as (p2 & s2 & Eq2 & L2 & H).
      exists p2, s2. split; [lia|]. split; [lia|exact H].
    + destruct (exec lower ic r1 pos s k) eqn:E1.
      * intros [= <-]. apply (IH1 _ _ _ _ E1).
      * intros H. exists pos, s. auto.
  - apply IH1.
Qed.

(** A match lies in the part of the subject that was searched, and it is
    not empty at the first offset when it must advance. *)
Lemma search_from_span r s : forall ma pos m,
  search_from lower ic r ma pos s = Some m ->
  (pos <= m_start m)%nat /\ (m_start m <= m_end m)%nat
  /\ (m_end m <= pos + length s)%nat
  /\ (ma = true -> m_start m = pos -> (pos < m_end m)%nat).
Proof.
  induction s as [|x s IH]; intros ma pos m; cbn [search_from].
  - destruct (exec lower ic r pos [] _) as [e|] eqn:E; [|discriminate].
    intros [= <-]. apply exec_result in E as (p' & s' & Eq & L & H).
    cbn [m_start m_end].
    destruct (ma && Nat.eqb p' pos) eqn:B; [discriminate|]. injection H as <-.
    simpl in Eq. repeat split; try lia.
    intros -> _. rewrite andb_true_l in B. apply Nat.eqb_neq in B. lia.
  - destruct (exec lower ic r pos (x :: s) _) as [e|] eqn:E.
    + intros [= <-]. apply exec_result in E as (p' & s' & Eq & L & H).
      cbn [m_start m_end].
      destruct (ma && Nat.eqb p' pos) eqn:B; [discriminate|]. injection H as <-.
      repeat split; try lia.
      intros -> _. rewrite andb_true_l in B. apply Nat.eqb_neq in B. lia.
    + intros H. apply IH in H. simpl. lia.
Qed.

(** The loop of [sub] never runs out of fuel: any fuel that covers two
    rounds for each code point left, and the last rounds, gives the same
    result. *)
Lemma sub_loop_fuel r repl : forall fuel1 fuel2 (ma : bool) pos s,
  (2 * length s + (if ma then 1 else 2) <= fuel1)%nat ->
  (2 * length s + (if ma then 1 else 2) <= fuel2)%nat ->
  sub_loop lower ic fuel1 r repl ma pos s = sub_loop lower ic fuel2 r repl ma pos s.
Proof.
  induction fuel1 as [|f1 IH]; intros fuel2 ma pos s H1 H2.
  - destruct ma; lia.
  - destruct fuel2 as [|f2]; [destruct ma; lia|].
    cbn [sub_loop]. destruct (search_from lower ic r ma pos s) as [m|] eqn:E;
      [|reflexivity].
    apply search_from_span in E as (L1 & L2 & L3 & L4).
    do 2 f_equal. apply IH; rewrite length_drop;
      destruct (Nat.eqb_spec (m_end m) (m_start m)) as [Ee|Ene];
      destruct ma; lia.
Qed.

(** *** Sequences of single-character items *)

Lemma exec_units rs pos s k :
  forallb unit_item rs = true ->
  exec lower ic (seq_of rs) pos s k
  = match match_units lower ic rs s with
    | Some rest => k (length rs + pos)%nat rest
    | None => None
    end.
Proof.
  revert pos s. induction rs as [|r rs IH]; intros pos s Hu; [reflexivity|].
  simpl in Hu. apply andb_prop in Hu as [Hr Hrs].
  destruct r as [|ch| |negate its| | | | | |]; try discriminate Hr;
    destruct s as [|x s]; simpl; try reflexivity.
  - destruct (chr_eq lower ic ch x); [|reflexivity].
    rewrite (IH (S pos) s Hrs). rewrite Nat.add_succ_r. reflexivity.
  - destruct (in_set lower ic negate its x); [|reflexivity].
    rewrite (IH (S pos) s Hrs). rewrite Nat.add_succ_r. reflexivity.
Qed.

Lemma match_units_spec rs s rest :
  match_units lower ic rs s = Some rest <->
  exists mid,
    s = mid ++ rest /\ Forall2 (fun r x => accepts lower ic r x = true) rs mid.
Proof.
  revert s. induction rs as [|r rs IH]; intros s; simpl.
  - split.
    + intros [= ->]. exists []. split; [reflexivity|constructor].
    + intros (mid & -> & H). inversion H. reflexivity.
  - destruct s as [|x s].
    + split; [discriminate|]. intros (mid & E & H). inversion H; subst. discriminate E.
    + destruct (accepts lower ic r x) eqn:A.
      * rewrite IH. split.
        -- intros (mid & -> & H). exists (x :: mid). split; [reflexivity|].
           constructor; assumption.
        -- intros (mid & E & H). inversion H; subst. injection E as <- ->.
           eexists; split; [reflexivity|assumption].
      * split; [discriminate|]. intros (mid & E & H). inversion H; subst.
        injection E as <- ->. congruence.
Qed.

(** *** [search]: a match that starts at some offset of the subject *)

Lemma search_from_is_Some r pos s :
  is_Some (search_from lower ic r false pos s) <->
  exists pre suf, s = pre ++ suf /\
    is_Some (exec lower ic r (pos + length pre) suf (fun e _ => Some e)).
Proof.
  revert pos. induction s as [|x s IH]; intros pos.
  - simpl. split.
    + intros H. exists [], []. split; [reflexivity|]. simpl. rewrite Nat.add_0_r.
      destruct (exec lower ic r pos [] _) eqn:E; [eauto|]. destruct H as [? [=]].
    + intros (pre & suf & E & H). symmetry in E. apply app_eq_nil in E as [-> ->].
      simpl in H. rewrite Nat.add_0_r in H. destruct H as [e ->]. eauto.
  - simpl. destruct (exec lower ic r pos (x :: s) _) eqn:E.
    + split; [|eauto]. intros _. exists [], (x :: s). split; [reflexivity|].
      simpl. rewrite Nat.add_0_r, E. eauto.
    + rewrite IH. split.
      * intros (pre & suf & -> & H). exists (x :: pre), suf. split; [reflexivity|].
        simpl. rewrite Nat.add_succ_r. exact H.
      * intros (pre & suf & Es & H). destruct pre as [|y pre].
        -- simpl in Es, H. subst suf. rewrite Nat.add_0_r, E in H.
           destruct H as [? [=]].
        -- injection Es as <- ->. exists pre, suf. split; [reflexivity|].
           simpl in H. rewrite Nat.add_succ_r in H. exact H.
Qed.

Lemma search_units rs s :
  forallb unit_item rs = true ->
  is_Some (search_from lower ic (seq_of rs) false 0 s) <->
  exists pre mid post, s = pre ++ mid ++ post /\
    Forall2 (fun r x => accepts lower ic r x = true) rs mid.
Proof.
  intros Hu. rewrite search_from_is_Some. split.
  - intros (pre & suf & -> & H). rewrite (exec_units _ _ _ _ Hu) in H.
    destruct (match_units lower ic rs suf) as [rest|] eqn:E; [|destruct H as [? [=]]].
    apply match_units_spec in E as (mid & -> & F). eauto.
  - intros (pre & mid & post & -> & F). exists pre, (mid ++ post).
    split; [reflexivity|]. rewrite (exec_units _ _ _ _ Hu).
    assert (match_units lower ic rs (mid ++ post) = Some post) as ->
      by (apply match_units_spec; eauto).
    eauto.
Qed.

End Matching_facts.

(** [sub] has fuel to spare. *)
Lemma sub_fuel lower p repl s fuel :
  (2 * length s + 2 <= fuel)%nat ->
  re.sub lower p repl s
  = re.sub_loop lower (re.IGNORECASE p) fuel (re.code p) repl false 0 s.
Proof. intros H. unfold re.sub. apply sub_loop_fuel; lia. Qed.

(** ** Removing the whitespace look-alikes *)

Section Spaces.
Import re.

Variable lower : N -> N.

(** The module-level [re.compile] succeeds, with this pattern object. *)
Lemma UNICODE_SPACES_REGEX_compiled :
  compile UNICODE_SPACES_PATTERN false = Ok UNICODE_SPACES_REGEX.
Proof. reflexivity. Qed.

Lemma existsb_eqb_elem_of (l : list N) x :
  existsb (fun i => i =? x) l = bool_decide (x ∈ l).
Proof.
  induction l as [|y l IH]; cbn [existsb].
  - symmetry. apply bool_decide_eq_false_2, not_elem_of_nil.
  - rewrite IH. destruct (N.eqb_spec y x) as [->|Hne]; cbn [orb].
    + symmetry. apply bool_decide_eq_true_2. left.
    + apply bool_decide_ext. rewrite elem_of_cons.
      split; [intros H; right; exact H | intros [E|H]; [congruence|exact H]].
Qed.

Lemma in_set_spaces x :
  in_set lower false false UNICODE_SPACES x = bool_decide (x ∈ UNICODE_SPACES).
Proof.
  unfold in_set. rewrite xorb_false_l.
  exact (existsb_eqb_elem_of UNICODE_SPACES x).
Qed.

(** The class matches one code point: the match found from [pos] on is
    the first member of the class, and it is one code point long. *)
Lemma search_spaces ma pos s :
  search_from lower false (code UNICODE_SPACES_REGEX) ma pos s
  = match s with
    | [] => None
    | x :: s' =>
        if bool_decide (x ∈ UNICODE_SPACES)
        then Some {| m_start := pos; m_end := S pos |}
        else search_from lower false (code UNICODE_SPACES_REGEX) false (S pos) s'
    end.
Proof.
  destruct s as [|x s]; [destruct ma; reflexivity|].
  cbn [search_from code UNICODE_SPACES_REGEX exec].
  rewrite in_set_spaces. destruct (bool_decide (x ∈ UNICODE_SPACES)); [|reflexivity].
  replace (Nat.eqb (S pos) pos) with false
    by (symmetry; apply Nat.eqb_neq; lia).
  rewrite andb_false_r. reflexivity.
Qed.

Lemma search_spaces_span ma pos s m :
  search_from lower false (code UNICODE_SPACES_REGEX) ma pos s = Some m ->
  (pos <= m_start m)%nat /\ m_end m = S (m_start m).
Proof.
  revert ma pos. induction s as [|x s IH]; intros ma pos; rewrite search_spaces.
  - discriminate.
  - destruct (bool_decide (x ∈ UNICODE_SPACES)).
    + intros [= <-]. simpl. lia.
    + intros H. apply IH in H. lia.
Qed.

(** Any fuel above the length of the content is enough. *)
Lemma sub_loop_spaces fuel ma pos s :
  (length s < fuel)%nat ->
  sub_loop lower false fuel (code UNICODE_SPACES_REGEX) [] ma pos s
  = remove_spaces s.
Proof.
  revert fuel ma pos. induction s as [|x s IH]; intros fuel ma pos Hf.
  - destruct fuel; [reflexivity|]. cbn [sub_loop]. rewrite search_spaces. reflexivity.
  - destruct fuel as [|fuel]; [simpl in Hf; lia|].
    cbn [sub_loop]. rewrite search_spaces. unfold remove_spaces.
    destruct (bool_decide (x ∈ UNICODE_SPACES)) eqn:Hx.
    + apply bool_decide_eq_true_1 in Hx.
      rewrite filter_cons_False by (intros Hn; exact (Hn Hx)).
      cbn [m_start m_end]. rewrite Nat.sub_diag.
      replace (S pos - pos)%nat with 1%nat by lia.
      cbn [take drop app]. apply IH. simpl in *. lia.
    + apply bool_decide_eq_false_1 in Hx. rewrite filter_cons_True by assumption.
      specialize (IH (S fuel) false (S pos) ltac:(simpl in *; lia)).
      cbn [sub_loop] in IH.
      destruct (search_from lower false (code UNICODE_SPACES_REGEX) false (S pos) s)
        as [m|] eqn:E.
      * destruct (search_spaces_span _ _ _ _ E) as [Hge He].
        replace (m_start m - pos)%nat with (S (m_start m - S pos)) by lia.
        replace (m_end m - pos)%nat with (S (m_end m - S pos)) by lia.
        cbn [take drop app]. f_equal. exact IH.
      * f_equal. exact IH.
Qed.

(** [UNICODE_SPACES_REGEX.sub("", content)] removes the members of the
    class and nothing else. *)
Lemma sub_spaces content :
  sub lower UNICODE_SPACES_REGEX [] content = remove_spaces content.
Proof. unfold sub. apply sub_loop_spaces. lia. Qed.




End Spaces.

(** ** Direct substring search *)

Lemma startswith_spec s p : startswith s p = true <-> exists post, s = p ++ post.
Proof.
  revert s. induction p as [|a p IH]; intros s; simpl.
  - split; eauto.
  - destruct s as [|x s].
    + split; [discriminate|]. intros (post & [=]).
    + rewrite andb_true_iff, N.eqb_eq, IH. split.
      * intros (-> & post & ->). eauto.
      * intros (post & [= -> ->]). eauto.
Qed.

Lemma contains_spec s p :
  contains s p = true <-> exists pre post, s = pre ++ p ++ post.
Proof.
  induction s as [|x s IH]; simpl.
  - rewrite orb_false_r, startswith_spec. split.
    + intros (post & ->). exists [], post. reflexivity.
    + intros (pre & post & E). symmetry in E.
      apply app_eq_nil in E as [-> E]. eauto.
  - rewrite orb_true_iff, startswith_spec, IH. split.
    + intros [(post & ->)|(pre & post & ->)].
      * exists [], post. reflexivity.
      * exists (x :: pre), post. reflexivity.
    + intros (pre & post & E). destruct pre as [|y pre].
      * left. eauto.
      * right. injection E as <- ->. eauto.
Qed.

(** ** The pattern of a phrase without confusables *)

Section Fallback.
Import re.

Variable lower : N -> N.

Lemma accepts_literals p mid :
  Forall2 (fun r x => accepts lower true r x = true) (map Literal p) mid
  <-> map lower mid = map lower p.
Proof.
  revert mid. induction p as [|a p IH]; intros mid; simpl.
  - split.
    + intros H. inversion H. reflexivity.
    + destruct mid; [constructor|discriminate].
  - split.
    + intros H. inversion H as [|r x rs mid' Hx Hrest]; subst. simpl.
      apply IH in Hrest. unfold accepts, chr_eq in Hx. apply N.eqb_eq in Hx.
      congruence.
    + destruct mid as [|x mid]; [discriminate|]. simpl. intros [= Hx Hrest].
      constructor; [|apply IH; assumption].
      unfold accepts, chr_eq. apply N.eqb_eq. congruence.
Qed.

Lemma units_literals p : forallb unit_item (map Literal p) = true.
Proof. induction p; simpl; auto. Qed.

(** The compiled escape of a phrase finds exactly the case-insensitive
    occurrences of the phrase. *)
Lemma search_escaped p s :
  bool_decide
    (is_Some (search lower {| pattern := escape p; IGNORECASE := true;
                              code := seq_of (map Literal p) |} s))
  = ci_substring lower p s.
Proof.
  unfold search. cbn [IGNORECASE code].
  apply eq_true_iff_eq. rewrite bool_decide_eq_true.
  rewrite (search_units _ _ _ _ (units_literals p)).
  unfold ci_substring. rewrite contains_spec. split.
  - intros (pre & mid & post & -> & F). apply accepts_literals in F.
    exists (map lower pre), (map lower post). rewrite !map_app. congruence.
  - intros (pre & post & E).
    apply map_eq_app in E as (s1 & s2 & -> & <- & E).
    apply map_eq_app in E as (s3 & s4 & -> & E & <-).
    exists s1, s3, s4. split; [reflexivity|]. apply accepts_literals. exact E.
Qed.

End Fallback.

(** ** [build_regex] as a function of the groups *)

Section Build.
Import re.

Lemma foldl_write {A} (f : A -> str) sb l :
  foldl (fun sb x => StringBuilder.write sb (f x)) sb l = sb ++ map f l.
Proof.
  revert sb. induction l as [|x l IH]; intros sb; simpl.
  - rewrite app_nil_r. reflexivity.
  - rewrite IH. unfold StringBuilder.write. rewrite <- app_assoc. reflexivity.
Qed.

(** One iteration of the first loop: the class of the group goes into
    [chars], and the builder is empty again. *)
Lemma build_class_eq (chars : gmap N str) g :
  Filter.build_class (chars, StringBuilder.new) g
  = (<[character g := class_of g]> chars, StringBuilder.new).
Proof.
  unfold Filter.build_class. rewrite foldl_write.
  unfold StringBuilder.write, StringBuilder.to_str, StringBuilder.clear,
    StringBuilder.new, class_of, class_items.
  do 2 f_equal. rewrite !concat_app. cbn [concat app].
  rewrite !app_nil_r.
  change (character g :: concat (map c (homoglyphs g)))
    with ([character g] ++ concat (map c (homoglyphs g))).
  rewrite escape_app, escape_concat, map_map, <- !app_assoc. reflexivity.
Qed.

Lemma build_classes (chars : gmap N str) groups :
  foldl Filter.build_class (chars, StringBuilder.new) groups
  = (foldl (fun chars g => <[character g := class_of g]> chars) chars groups,
     StringBuilder.new).
Proof.
  revert chars. induction groups as [|g groups IH]; intros chars; [reflexivity|].
  cbn [foldl]. rewrite build_class_eq. apply IH.
Qed.

(** The pattern is the concatenation of the fragments of the characters
    of the text, in order. *)
Lemma build_regex_eq text groups :
  Filter.build_regex text groups = concat (map (fragment groups) text).
Proof.
  unfold Filter.build_regex. rewrite build_classes. rewrite foldl_write. reflexivity.
Qed.

Lemma build_regex_empty groups : Filter.build_regex [] groups = [].
Proof. rewrite build_regex_eq. reflexivity. Qed.

Lemma group_of_character groups char g :
  group_of groups char = Some g -> character g = char.
Proof.
  induction groups as [|g0 groups IH]; simpl; [discriminate|].
  destruct (group_of groups char) as [g'|].
  - intros [= ->]. auto.
  - case_bool_decide; [intros [= ->]; assumption|discriminate].
Qed.

Lemma class_table_from (chars : gmap N str) groups char :
  foldl (fun chars g => <[character g := class_of g]> chars) chars groups !! char
  = match group_of groups char with
    | Some g => Some (class_of g)
    | None => chars !! char
    end.
Proof.
  revert chars. induction groups as [|g groups IH]; intros chars; [reflexivity|].
  cbn [foldl group_of]. rewrite IH.
  destruct (group_of groups char) as [g'|]; [reflexivity|].
  rewrite lookup_insert. case_decide; case_bool_decide; congruence.
Qed.

(** A character with a group gets the class of the group; a character
    without one is written as it is. *)
Lemma fragment_eq groups char :
  fragment groups char
  = match group_of groups char with
    | Some g => class_of g
    | None => [char]
    end.
Proof.
  unfold fragment, class_table. rewrite class_table_from, lookup_empty.
  destruct (group_of groups char); reflexivity.
Qed.

Lemma feed_fragment stk f groups char :
  bare_meta groups char = false ->
  feed (PState stk f InPattern) (fragment groups char)
  = Ok (PState stk (push (node_of groups char) f) InPattern).
Proof.
  unfold bare_meta, node_of. rewrite fragment_eq.
  destruct (group_of groups char) as [g|].
  - intros _. apply feed_class.
  - rewrite bool_decide_eq_false_2 by (intros [? [=]]).
    rewrite andb_true_r. intros H. cbn [feed]. unfold step. cbn [pmode stack cur].
    rewrite (step_pattern_literal _ _ _ H). reflexivity.
Qed.

Lemma feed_fragments stk groups text : forall f,
  no_bare_meta groups text = true ->
  feed (PState stk f InPattern) (concat (map (fragment groups) text))
  = Ok (PState stk (Frame (branches f) (rev (map (node_of groups) text) ++ items f))
          InPattern).
Proof.
  induction text as [|char text IH]; intros f H.
  - destruct f; reflexivity.
  - cbn [no_bare_meta forallb] in H. apply andb_prop in H as [Hc Ht].
    apply negb_true_iff in Hc.
    cbn [map concat]. rewrite feed_app, (feed_fragment _ _ _ _ Hc). cbn [bind].
    rewrite (IH _ Ht). cbn [push branches items rev]. rewrite <- app_assoc.
    reflexivity.
Qed.

(** With no metacharacter left bare, the pattern of the groups branch
    parses to one single-character item per character of the text. *)
Lemma parse_build_regex text groups :
  no_bare_meta groups text = true ->
  parse (Filter.build_regex text groups) = Ok (seq_of (map (node_of groups) text)).
Proof.
  intros H. unfold parse. rewrite build_regex_eq, (feed_fragments _ _ _ _ H).
  cbn [bind finish pmode stack cur]. unfold close_frame.
  cbn [items branches empty_frame foldl].
  rewrite app_nil_r, rev_involutive. reflexivity.
Qed.

Lemma units_nodes groups text :
  forallb unit_item (map (node_of groups) text) = true.
Proof.
  induction text as [|char text IH]; [reflexivity|].
  cbn [map forallb]. rewrite IH, andb_true_r.
  unfold node_of. destruct (group_of groups char); reflexivity.
Qed.

End Build.

(** ** The filter *)

Section Filter_facts.
Import re.

Variable lower : N -> N.
Variable is_confusable : str -> list group.

(** [matches] tries the content and the content without the whitespace
    look-alikes. *)
Lemma matches_eq (m : Filter.t) content :
  Filter.matches lower m content
  = bool_decide (is_Some (search lower (Filter.regex m) content))
    || bool_decide (is_Some (search lower (Filter.regex m) (remove_spaces content))).
Proof.
  unfold Filter.matches. cbn [existsb]. rewrite sub_spaces, orb_false_r.
  reflexivity.
Qed.

(** Construction in the fallback branch. *)
Lemma init_fallback text :
  is_confusable text = [] ->
  Filter.__init__ is_confusable text
  = Ok {| Filter.text := text;
          Filter.regex := {| pattern := escape text; IGNORECASE := true;
                             code := seq_of (map Literal text) |} |}.
Proof.
  intros H. unfold Filter.__init__, Filter.init_pattern. rewrite H.
  cbn [bool_decide decide_rel negb]. rewrite bool_decide_eq_true_2 by reflexivity.
  cbn [negb]. unfold compile. rewrite parse_escape. reflexivity.
Qed.

(** Construction succeeds when no metacharacter is left bare, and the
    pattern is one single-character item per character of the phrase. *)
Lemma init_well_escaped text :
  well_escaped is_confusable text = true ->
  exists pat,
    Filter.__init__ is_confusable text
    = Ok {| Filter.text := text;
            Filter.regex := {| pattern := pat; IGNORECASE := true;
                               code := seq_of (map (node_of (is_confusable text)) text) |} |}.
Proof.
  unfold well_escaped. intros H.
  destruct (decide (is_confusable text = [])) as [E|E].
  - rewrite (init_fallback _ E), E. eexists. reflexivity.
  - rewrite bool_decide_eq_false_2 in H by assumption. cbn [orb] in H.
    unfold Filter.__init__, Filter.init_pattern.
    rewrite bool_decide_eq_false_2 by assumption. cbn [negb].
    unfold compile. rewrite (parse_build_regex _ _ H). eexists. reflexivity.
Qed.

Lemma nodes_accept_text groups text :
  Forall2 (fun r x => accepts lower true r x = true) (map (node_of groups) text) text.
Proof.
  induction text as [|char text IH]; [constructor|].
  cbn [map]. constructor; [|exact IH].
  unfold node_of. destruct (group_of groups char) as [g|] eqn:E.
  - apply group_of_character in E. unfold accepts, in_set, class_items.
    cbn [existsb xorb]. rewrite E. unfold chr_eq at 1. rewrite N.eqb_refl.
    reflexivity.
  - unfold accepts, chr_eq. apply N.eqb_refl.
Qed.

(** A phrase with no bare metacharacter is found wherever it occurs. *)
Lemma search_occurrence text (m : Filter.t) pre post :
  well_escaped is_confusable text = true ->
  Filter.__init__ is_confusable text = Ok m ->
  is_Some (search lower (Filter.regex m) (pre ++ text ++ post)).
Proof.
  intros H Hm. destruct (init_well_escaped _ H) as (pat & E).
  rewrite E in Hm. injection Hm as <-. unfold search. cbn [Filter.regex IGNORECASE code].
  apply (search_units _ _ _ _ (units_nodes _ _)).
  exists pre, text, post. split; [reflexivity|]. apply nodes_accept_text.
Qed.

(** With no metacharacter left bare, a matcher matches its own phrase. *)
Lemma matches_own_phrase text :
  well_escaped is_confusable text = true ->
  exists m, Filter.__init__ is_confusable text = Ok m
            /\ Filter.matches lower m text = true.
Proof.
  intros H. destruct (init_well_escaped _ H) as (pat & E).
  eexists. split; [exact E|]. rewrite matches_eq.
  apply orb_true_intro. left. apply bool_decide_eq_true_2.
  pose proof (search_occurrence text _ [] [] H E) as Hs.
  rewrite app_nil_r in Hs. exact Hs.
Qed.

(** With no metacharacter left bare, the matcher of a non-empty phrase
    does not match the empty content. *)
Lemma nonempty_phrase_rejects_empty_content text :
  text <> [] ->
  well_escaped is_confusable text = true ->
  exists m, Filter.__init__ is_confusable text = Ok m
            /\ Filter.matches lower m [] = false.
Proof.
  intros Hne H. destruct (init_well_escaped _ H) as (pat & E).
  eexists. split; [exact E|]. rewrite matches_eq.
  change (remove_spaces []) with (@nil N). rewrite orb_diag.
  apply bool_decide_eq_false_2. unfold search. cbn [Filter.regex IGNORECASE code].
  rewrite (search_units _ _ _ _ (units_nodes _ _)).
  intros (pre & mid & post & Es & F). symmetry in Es.
  apply app_eq_nil in Es as [_ Es]. apply app_eq_nil in Es as [-> _].
  inversion F as [Hnil|]. destruct text; [congruence|discriminate].
Qed.


End Filter_facts.

(** ** Metacharacters that reach the pattern bare *)

Section Defect.
Import re.

Variable lower : N -> N.
Variable is_confusable : str -> list group.

(** The pattern of the groups branch. *)
Lemma init_pattern_groups text :
  is_confusable text <> [] ->
  Filter.init_pattern is_confusable text
  = concat (map (fragment (is_confusable text)) text).
Proof.
  intros H. unfold Filter.init_pattern.
  rewrite bool_decide_eq_false_2 by assumption. cbn [negb].
  apply build_regex_eq.
Qed.

Lemma fragment_bare groups ch : group_of groups ch = None -> fragment groups ch = [ch].
Proof. intros H. rewrite fragment_eq, H. reflexivity. Qed.

(** A phrase that ends in a bare "[", "(" or backslash does not compile. *)
Lemma init_raises_on_open text last :
  is_confusable (text ++ [last]) <> [] ->
  no_bare_meta (is_confusable (text ++ [last])) text = true ->
  group_of (is_confusable (text ++ [last])) last = None ->
  last = ord "[" \/ last = ord "(" \/ last = ord "\" ->
  Filter.__init__ is_confusable (text ++ [last]) = Raise re_error.
Proof.
  intros Hg Hpre Hlast Hc. unfold Filter.__init__, compile, parse.
  rewrite (init_pattern_groups _ Hg), map_app, concat_app, feed_app.
  rewrite (feed_fragments _ _ _ _ Hpre). cbn [bind map concat].
  rewrite (fragment_bare _ _ Hlast).
  destruct Hc as [-> | [-> | ->]]; reflexivity.
Qed.


Lemma exec_seq_app ic a b : forall pos s k,
  exec lower ic (seq_of (a ++ b)) pos s k
  = exec lower ic (seq_of a) pos s (fun pos' s' => exec lower ic (seq_of b) pos' s' k).
Proof.
  induction a as [|r a IH]; intros pos s k; [reflexivity|].
  cbn [app seq_of foldr exec]. apply exec_ext. intros pos' s' _ _. apply IH.
Qed.

(** A bare "$" in the phrase is an end-of-string assertion in the
    pattern. *)
Lemma parse_bare_dollar groups pre post :
  no_bare_meta groups pre = true ->
  no_bare_meta groups post = true ->
  group_of groups (ord "$") = None ->
  parse (concat (map (fragment groups) (pre ++ lit "$" ++ post)))
  = Ok (seq_of (map (node_of groups) pre ++ AtEnd :: map (node_of groups) post)).
Proof.
  change (lit "$" ++ post) with (36 :: post). change (ord "$") with 36.
  intros Hpre Hpost Hd. unfold parse.
  rewrite map_app, concat_app, feed_app, (feed_fragments _ _ _ _ Hpre).
  cbn [bind map concat]. rewrite (fragment_bare _ _ Hd), feed_app.
  cbn [feed bind]. unfold step at 1. cbn [pmode stack cur bind].
  change (step_pattern [] ?f 36) with (Ok (PState [] (push AtEnd f) InPattern)).
  cbn [bind]. rewrite (feed_fragments _ _ _ _ Hpost).
  cbn [bind finish pmode stack cur]. unfold close_frame.
  cbn [items branches push empty_frame foldl].
  rewrite app_nil_r, rev_app_distr. cbn [rev]. rewrite !rev_involutive.
  rewrite <- app_assoc. reflexivity.
Qed.

(** Items, "$", and at least one more item: no match in a subject
    without a newline. *)
Lemma exec_dollar_then_item ic rs1 rs2 pos s k :
  forallb unit_item rs1 = true ->
  forallb unit_item rs2 = true ->
  rs2 <> [] ->
  0x0a ∉ s ->
  exec lower ic (seq_of (rs1 ++ AtEnd :: rs2)) pos s k = None.
Proof.
  intros H1 H2 Hne Hs. rewrite exec_seq_app, (exec_units _ _ _ _ _ _ H1).
  destruct (match_units lower ic rs1 s) as [rest|] eqn:E; [|reflexivity].
  apply match_units_spec in E as (mid & -> & _).
  cbn [seq_of foldr exec]. destruct rest as [|x [|y rest]]; [| |reflexivity].
  - fold (seq_of rs2). rewrite (exec_units _ _ _ _ _ _ H2).
    destruct rs2; [congruence|reflexivity].
  - destruct (N.eqb_spec x 10) as [->|]; [|reflexivity].
    exfalso. apply Hs. rewrite elem_of_app. right. left.
Qed.

Lemma search_dollar_then_item ic rs1 rs2 s :
  forallb unit_item rs1 = true ->
  forallb unit_item rs2 = true ->
  rs2 <> [] ->
  0x0a ∉ s ->
  ~ is_Some (search_from lower ic (seq_of (rs1 ++ AtEnd :: rs2)) false 0 s).
Proof.
  intros H1 H2 Hne Hs. rewrite search_from_is_Some.
  intros (pre & suf & -> & [e He]).
  rewrite exec_dollar_then_item in He; [discriminate|assumption..|].
  intros Hin. apply Hs. rewrite elem_of_app. right. exact Hin.
Qed.

(** A phrase with a bare "$" before its end matches no content without a
    newline; so it does not match itself, unless it holds a newline. *)
Lemma bare_dollar_matches_nothing pre post content :
  is_confusable (pre ++ lit "$" ++ post) <> [] ->
  no_bare_meta (is_confusable (pre ++ lit "$" ++ post)) pre = true ->
  no_bare_meta (is_confusable (pre ++ lit "$" ++ post)) post = true ->
  group_of (is_confusable (pre ++ lit "$" ++ post)) (ord "$") = None ->
  post <> [] ->
  0x0a ∉ content ->
  exists m,
    Filter.__init__ is_confusable (pre ++ lit "$" ++ post) = Ok m
    /\ Filter.matches lower m content = false.
Proof.
  intros Hg Hpre Hpost Hd Hne Hc. unfold Filter.__init__, compile.
  rewrite (init_pattern_groups _ Hg), (parse_bare_dollar _ _ _ Hpre Hpost Hd).
  cbn [bind]. eexists. split; [reflexivity|].
  rewrite matches_eq. unfold search. cbn [Filter.regex IGNORECASE code].
  assert (Hnodes : forall l,
            forallb unit_item
              (map (node_of (is_confusable (pre ++ lit "$" ++ post))) l) = true)
    by (intros l; apply units_nodes).
  assert (Hpost' : map (node_of (is_confusable (pre ++ lit "$" ++ post))) post <> [])
    by (destruct post; [congruence|discriminate]).
  rewrite !bool_decide_eq_false_2; [reflexivity| |].
  - apply search_dollar_then_item; auto.
    unfold remove_spaces. rewrite list_elem_of_filter. tauto.
  - apply search_dollar_then_item; auto.
Qed.

End Defect.

(** ** The hash stays in the range of a machine word *)

Lemma word_range_shiftr (y : Z) :
  (-2^63 <= y < 2^63 <-> -1 <= Z.shiftr y 63 <= 0)%Z.
Proof.
  rewrite Z.shiftr_div_pow2 by lia.
  pose proof (Z.div_mod y (2^63) ltac:(lia)) as E.
  pose proof (Z.mod_pos_bound y (2^63) ltac:(lia)) as B.
  change (2^63)%Z with 9223372036854775808%Z in *. lia.
Qed.

Lemma lxor_salt_range (x : Z) :
  (-2^63 <= x < 2^63 -> -2^63 <= Z.lxor x 0x2C6F024ED28 < 2^63)%Z.
Proof.
  rewrite !word_range_shiftr, Z.shiftr_lxor.
  change (Z.shiftr 0x2C6F024ED28 63) with 0%Z. rewrite Z.lxor_0_r. trivial.
Qed.

(** ** Patterns with no repeat and no group

    When the only metacharacters that reach the pattern bare are "$" and
    "[", the pattern has no repeat, no group and no alternative: it
    parses, when it parses, to items that consume one code point each and
    end-of-string assertions. *)

Section Flat_patterns.
Import re.

Variable lower : N -> N.
Variable is_confusable : str -> list group.













End Flat_patterns.

(** ** The strings a matcher is built to find *)

Section Variants.
Import re.

Variable lower : N -> N.
Variable is_confusable : str -> list group.







End Variants.

(** ** The welcome model *)

Section Welcome_facts.
Import Welcome.

Context {JoinAlertKey : Type} `{!EqDecision JoinAlertKey, !Countable JoinAlertKey}.
Context {ValueRelationship value connection : Type}.

#[local] Abbreviation statement := (@WelcomeModel.statement JoinAlertKey ValueRelationship).
#[local] Abbreviation ResultProxy := (@WelcomeModel.ResultProxy JoinAlertKey ValueRelationship).
#[local] Abbreviation Alert := (@WelcomeModel.Alert JoinAlertKey ValueRelationship value).
#[local] Abbreviation model := (@WelcomeModel.t JoinAlertKey _ _ connection).

Variable str_value : value -> str.
Variable parse_value : JoinAlertKey -> str -> outcome value.
Variable execute : statement -> connection -> connection * outcome ResultProxy.

(** [discord.utils.get] finds a channel of the list with the id asked
    for, the first one, when there is one. *)
Lemma utils_get_Some channels id ch :
  utils_get channels id = Some ch ->
  ch ∈ channels /\ id = Some (TextChannel.id ch).
Proof.
  unfold utils_get. destruct (list_find _ channels) as [[i x]|] eqn:E; [|discriminate].
  simpl. intros [= <-]. apply list_find_Some in E as (Hi & Hx & _).
  split; [eapply list_elem_of_lookup_2; exact Hi | congruence].
Qed.

Lemma utils_get_first channels id ch :
  utils_get channels id = Some ch
  <-> exists i,
        channels !! i = Some ch
        /\ Some (TextChannel.id ch) = id
        /\ forall j ch', channels !! j = Some ch' -> (j < i)%nat ->
                         Some (TextChannel.id ch') <> id.
Proof.
  unfold utils_get. split.
  - destruct (list_find _ channels) as [[i x]|] eqn:E; [|discriminate].
    simpl. intros [= <-]. apply list_find_Some in E as (Hi & Hx & Hfirst).
    exists i. split; [exact Hi|]. split; [exact Hx|]. exact Hfirst.
  - intros (i & Hi & Hx & Hfirst).
    assert (list_find (fun elem => Some (TextChannel.id elem) = id) channels
            = Some (i, ch)) as E
      by (apply list_find_Some; split; [exact Hi|]; split; [exact Hx|exact Hfirst]).
    rewrite E. reflexivity.
Qed.

Lemma utils_get_None channels id :
  utils_get channels id = None <->
  forall ch, ch ∈ channels -> Some (TextChannel.id ch) <> id.
Proof.
  unfold utils_get. split.
  - destruct (list_find _ channels) as [[i x]|] eqn:E; [discriminate|].
    intros _. apply list_find_None in E. rewrite Forall_forall in E. exact E.
  - intros Hn. destruct (list_find _ channels) as [[i x]|] eqn:E; [|reflexivity].
    apply list_find_Some in E as (Hi & Hx & _).
    destruct (Hn x (list_elem_of_lookup_2 _ _ _ Hi) Hx).
Qed.

Lemma utils_get_no_id channels : utils_get channels None = None.
Proof. apply utils_get_None. intros ch _. discriminate. Qed.

(** The storage of [WelcomeStorage(guild)]: nothing set, delete on
    agree. *)
Lemma default_storage guild :
  WelcomeStorage.default guild
  = {| WelcomeStorage.guild := guild;
       WelcomeStorage.welcome_message := None;
       WelcomeStorage.goodbye_message := None;
       WelcomeStorage.agreed_message := None;
       WelcomeStorage.delete_on_agree := true;
       WelcomeStorage.welcome_channel := None |}.
Proof.
  unfold WelcomeStorage.default, WelcomeStorage.__init__.
  rewrite utils_get_no_id. reflexivity.
Qed.

Lemma assignment_guild s storage :
  WelcomeStorage.guild (assignment s storage) = WelcomeStorage.guild storage.
Proof. destruct s; reflexivity. Qed.

(** *** The methods, by the outcome of the statement they run *)

Lemma add_welcome_eq guild self :
  WelcomeModel.add_welcome execute guild self
  = match execute (WelcomeModel.InsertWelcome (Guild.id guild) None None true None)
            (WelcomeModel.sql self) with
    | (conn, Return _) =>
        ({| WelcomeModel.sql := conn;
            WelcomeModel.heap := WelcomeModel.heap self ++ [WelcomeStorage.default guild];
            WelcomeModel.welcome_cache :=
              <[Guild.id guild := length (WelcomeModel.heap self)]>
                (WelcomeModel.welcome_cache self);
            WelcomeModel.alerts_cache := WelcomeModel.alerts_cache self |}, Return tt)
    | (conn, Throw e) =>
        ({| WelcomeModel.sql := conn;
            WelcomeModel.heap := WelcomeModel.heap self ++ [WelcomeStorage.default guild];
            WelcomeModel.welcome_cache := WelcomeModel.welcome_cache self;
            WelcomeModel.alerts_cache := WelcomeModel.alerts_cache self |}, Throw e)
    end.
Proof.
  unfold WelcomeModel.add_welcome, WelcomeModel.bindM, WelcomeModel.new,
    WelcomeModel.sql_execute, WelcomeModel.welcome_cache_setitem.
  rewrite default_storage. cbn.
  destruct (execute _ (WelcomeModel.sql self)) as [conn [r|e]]; reflexivity.
Qed.

Lemma remove_welcome_eq guild self :
  WelcomeModel.remove_welcome execute guild self
  = match execute (WelcomeModel.DeleteWelcome (Guild.id guild)) (WelcomeModel.sql self) with
    | (conn, Return _) =>
        ({| WelcomeModel.sql := conn;
            WelcomeModel.heap := WelcomeModel.heap self;
            WelcomeModel.welcome_cache :=
              delete (Guild.id guild) (WelcomeModel.welcome_cache self);
            WelcomeModel.alerts_cache := WelcomeModel.alerts_cache self |}, Return tt)
    | (conn, Throw e) => (with_sql conn self, Throw e)
    end.
Proof.
  unfold WelcomeModel.remove_welcome, WelcomeModel.bindM,
    WelcomeModel.sql_execute, WelcomeModel.welcome_cache_pop.
  destruct (execute _ (WelcomeModel.sql self)) as [conn [r|e]]; reflexivity.
Qed.

Lemma get_welcome_hit guild self ref :
  WelcomeModel.welcome_cache self !! Guild.id guild = Some ref ->
  WelcomeModel.get_welcome execute guild self = (self, Return ref).
Proof.
  intros E. unfold WelcomeModel.get_welcome, WelcomeModel.bindM,
    WelcomeModel.welcome_cache_contains, WelcomeModel.welcome_cache_getitem.
  rewrite bool_decide_eq_true_2 by (rewrite E; eauto). rewrite E. reflexivity.
Qed.

(** [get_welcome] for a guild that is not cached: when it returns, it
    returns a new object of the guild, now cached. *)
Lemma get_welcome_miss guild self self' ref :
  WelcomeModel.welcome_cache self !! Guild.id guild = None ->
  WelcomeModel.get_welcome execute guild self = (self', Return ref) ->
  exists storage,
    ref = length (WelcomeModel.heap self)
    /\ WelcomeModel.heap self' = WelcomeModel.heap self ++ [storage]
    /\ WelcomeStorage.guild storage = guild
    /\ WelcomeModel.welcome_cache self'
       = <[Guild.id guild := ref]> (WelcomeModel.welcome_cache self)
    /\ WelcomeModel.alerts_cache self' = WelcomeModel.alerts_cache self.
Proof.
  intros E. unfold WelcomeModel.get_welcome.
  unfold WelcomeModel.bindM at 1. unfold WelcomeModel.welcome_cache_contains.
  rewrite E. rewrite bool_decide_eq_false_2 by (intros [? [=]]).
  unfold WelcomeModel.bindM at 1. unfold WelcomeModel.sql_execute at 1.
  destruct (execute _ (WelcomeModel.sql self)) as [conn [r|e]]; [|discriminate].
  destruct (negb (WelcomeModel.truth (WelcomeModel.rowcount r))).
  - unfold WelcomeModel.bindM. rewrite add_welcome_eq. cbn.
    destruct (execute _ conn) as [conn' [r'|e']]; [|discriminate].
    unfold WelcomeModel.welcome_cache_getitem. cbn. rewrite lookup_insert_eq.
    intros [= <- <-]. eexists. cbn. repeat split; reflexivity.
  - unfold WelcomeModel.bindM, WelcomeModel.lift.
    destruct (WelcomeModel.fetchone_unpack5 r) as [[[[[wm gm] am] doa] wcid]|e];
      [|discriminate].
    cbn. intros [= <- <-]. eexists. cbn. repeat split; reflexivity.
Qed.

(** A setter: the assertion, the UPDATE, the lookup in the cache, the
    assignment. *)
Lemma set_setting_eq guild s self :
  set_setting execute guild s self
  = if asserted guild s then
      match execute (update_of guild s) (WelcomeModel.sql self) with
      | (conn, Return _) =>
          match WelcomeModel.welcome_cache self !! Guild.id guild with
          | Some ref =>
              ({| WelcomeModel.sql := conn;
                  WelcomeModel.heap := alter (assignment s) ref (WelcomeModel.heap self);
                  WelcomeModel.welcome_cache := WelcomeModel.welcome_cache self;
                  WelcomeModel.alerts_cache := WelcomeModel.alerts_cache self |},
               Return tt)
          | None => (with_sql conn self, Throw KeyError)
          end
      | (conn, Throw e) => (with_sql conn self, Throw e)
      end
    else (self, Throw AssertionError).
Proof.
  destruct s as [v|v|v|v|[ch|]]; cbn [set_setting asserted update_of values_of assignment];
    unfold WelcomeModel.set_welcome_message, WelcomeModel.set_goodbye_message,
      WelcomeModel.set_agreed_message, WelcomeModel.set_delete_on_agree,
      WelcomeModel.set_welcome_channel, WelcomeModel.bindM, WelcomeModel.assert,
      WelcomeModel.sql_execute, WelcomeModel.welcome_cache_getitem,
      WelcomeModel.setattr, WelcomeModel.ret, WelcomeModel.raise;
    try destruct (bool_decide (Guild.id guild = TextChannel.guild ch));
    try reflexivity;
    destruct (execute _ (WelcomeModel.sql self)) as [conn [r|e]]; cbn;
    try destruct (WelcomeModel.welcome_cache self !! Guild.id guild); reflexivity.
Qed.

Lemma add_alert_eq guild (alert : Alert) self :
  WelcomeModel.alerts_cache self !! Guild.id guild = None
  \/ WelcomeModel.alerts_cache self !! Guild.id guild = Some ∅ ->
  WelcomeModel.add_alert str_value execute guild alert self
  = let self1 :=
      {| WelcomeModel.sql := WelcomeModel.sql self;
         WelcomeModel.heap := WelcomeModel.heap self;
         WelcomeModel.welcome_cache := WelcomeModel.welcome_cache self;
         WelcomeModel.alerts_cache :=
           <[Guild.id guild := ∅]> (WelcomeModel.alerts_cache self) |} in
    match execute (WelcomeModel.InsertAlert (Guild.id guild) (WelcomeModel.key alert)
                     (WelcomeModel.op alert)
                     (str_value (WelcomeModel.alert_value alert)))
            (WelcomeModel.sql self) with
    | (conn, Return _) => (with_sql conn self1, Return tt)
    | (conn, Throw e) => (with_sql conn self1, Throw e)
    end.
Proof.
  intros Hc. unfold WelcomeModel.add_alert, WelcomeModel.bindM,
    WelcomeModel.alerts_cache_getitem.
  destruct Hc as [Hc|Hc]; rewrite Hc; cbv beta iota;
    rewrite bool_decide_eq_false_2 by apply not_elem_of_empty;
    unfold WelcomeModel.sql_execute, WelcomeModel.ret; cbn.
  - destruct (execute _ (WelcomeModel.sql self)) as [conn [r|e]]; reflexivity.
  - rewrite (insert_id _ _ _ Hc).
    destruct (execute _ (WelcomeModel.sql self)) as [conn [r|e]]; destruct self;
      reflexivity.
Qed.

Lemma remove_alert_eq guild key self :
  WelcomeModel.remove_alert execute guild key self
  = match execute (WelcomeModel.DeleteAlert (Guild.id guild) key)
            (WelcomeModel.sql self) with
    | (conn, Return result) =>
        (with_sql conn self,
         match WelcomeModel.rowcount result with
         | WelcomeModel.IntAttr _ => Throw TypeError
         | WelcomeModel.MethodAttr n =>
             if bool_decide (n = 0 \/ n = 1)%Z then Return tt
             else Throw AssertionError
         end)
    | (conn, Throw e) => (with_sql conn self, Throw e)
    end.
Proof.
  unfold WelcomeModel.remove_alert, WelcomeModel.bindM, WelcomeModel.sql_execute,
    WelcomeModel.lift, WelcomeModel.assert, WelcomeModel.call.
  destruct (execute _ (WelcomeModel.sql self)) as [conn [r|e]]; [|reflexivity].
  destruct (WelcomeModel.rowcount r) as [n|n]; [reflexivity|].
  destruct (bool_decide (n = 0 \/ n = 1)%Z); reflexivity.
Qed.

Lemma get_all_alerts_state guild self :
  (WelcomeModel.get_all_alerts parse_value execute guild self).1
  = with_sql (execute (WelcomeModel.SelectAlerts (Guild.id guild))
                (WelcomeModel.sql self)).1 self.
Proof.
  unfold WelcomeModel.get_all_alerts, WelcomeModel.bindM, WelcomeModel.sql_execute,
    WelcomeModel.lift.
  destruct (execute _ (WelcomeModel.sql self)) as [conn [r|e]]; reflexivity.
Qed.

Lemma remove_all_alerts_state guild self :
  (WelcomeModel.remove_all_alerts execute guild self).1
  = with_sql (execute (WelcomeModel.DeleteAlerts (Guild.id guild))
                (WelcomeModel.sql self)).1 self.
Proof.
  unfold WelcomeModel.remove_all_alerts, WelcomeModel.bindM, WelcomeModel.sql_execute,
    WelcomeModel.ret.
  destruct (execute _ (WelcomeModel.sql self)) as [conn [r|e]]; reflexivity.
Qed.

(** The loop of [get_all_alerts] returns when every row parses, with
    one alert per row, in the order of the rows. *)
Lemma alerts_of_spec (fetched : list (@WelcomeModel.row JoinAlertKey ValueRelationship))
    alerts out :
  WelcomeModel.alerts_of parse_value fetched alerts = Return out
  <-> exists new, out = alerts ++ new /\ Forall2 (alert_of_row parse_value) fetched new.
Proof.
  revert alerts. induction fetched as [|r fetched IH]; intros alerts;
    cbn [WelcomeModel.alerts_of].
  - split.
    + intros [= <-]. exists []. rewrite app_nil_r. split; [reflexivity|constructor].
    + intros (new & -> & F). inversion F. rewrite app_nil_r. reflexivity.
  - destruct r as [wm gm am doa wcid|key op raw]; cbn [WelcomeModel.unpack3].
    + split; [discriminate|]. intros (new & _ & F).
      inversion F as [|r a rs new' Ha Hrest]; subst.
      destruct Ha as (raw & Hr & _). discriminate Hr.
    + destruct (parse_value key raw) as [v|e] eqn:Ep.
      * rewrite IH. split.
        -- intros (new & -> & F). exists ((key, op, v) :: new).
           rewrite <- app_assoc. split; [reflexivity|].
           constructor; [|exact F]. exists raw. auto.
        -- intros (new & -> & F).
           inversion F as [|r a rs new' Ha Hrest]; subst.
           destruct a as [[k o] v']. destruct Ha as (raw' & Hr & Hp).
           cbn in Hr, Hp. injection Hr as <- <- <-. rewrite Ep in Hp.
           injection Hp as <-. exists new'. rewrite <- app_assoc. auto.
      * split; [discriminate|]. intros (new & _ & F).
        inversion F as [|r a rs new' Ha Hrest]; subst.
        destruct a as [[k o] v']. destruct Ha as (raw' & Hr & Hp).
        cbn in Hr, Hp. injection Hr as <- <- <-. congruence.
Qed.

(** *** What a call may change *)

Lemma evolves_same guild_id (self self' : model) :
  WelcomeModel.heap self' = WelcomeModel.heap self ->
  WelcomeModel.welcome_cache self' = WelcomeModel.welcome_cache self ->
  WelcomeModel.alerts_cache self' = WelcomeModel.alerts_cache self ->
  evolves guild_id self self'.
Proof.
  intros Hh Hw Ha. unfold evolves. rewrite Hh, Hw, Ha.
  repeat split; eauto.
Qed.

Lemma evolves_garbage guild_id (self self' : model) storage :
  WelcomeModel.heap self' = WelcomeModel.heap self ++ [storage] ->
  WelcomeModel.welcome_cache self' = WelcomeModel.welcome_cache self ->
  WelcomeModel.alerts_cache self' = WelcomeModel.alerts_cache self ->
  evolves guild_id self self'.
Proof.
  intros Hh Hw Ha. unfold evolves. rewrite Hh, Hw, Ha.
  repeat split; eauto.
  intros ref st Hst. exists st. rewrite lookup_app_l by (eapply lookup_lt_Some; eauto).
  auto.
Qed.

Lemma evolves_new (self self' : model) storage :
  WelcomeModel.heap self' = WelcomeModel.heap self ++ [storage] ->
  WelcomeModel.welcome_cache self'
  = <[Guild.id (WelcomeStorage.guild storage) := length (WelcomeModel.heap self)]>
      (WelcomeModel.welcome_cache self) ->
  WelcomeModel.alerts_cache self' = WelcomeModel.alerts_cache self ->
  evolves (Guild.id (WelcomeStorage.guild storage)) self self'.
Proof.
  intros Hh Hw Ha. unfold evolves. rewrite Hh, Hw, Ha.
  split; [|split; [|split]].
  - intros ref st Hst. exists st.
    rewrite lookup_app_l by (eapply lookup_lt_Some; eauto). auto.
  - intros gid Hne. apply lookup_insert_ne. congruence.
  - right. right. exists (length (WelcomeModel.heap self)), storage.
    rewrite lookup_insert_eq, list_lookup_middle by reflexivity. auto.
  - auto.
Qed.

Lemma evolves_pop guild_id (self self' : model) :
  WelcomeModel.heap self' = WelcomeModel.heap self ->
  WelcomeModel.welcome_cache self' = delete guild_id (WelcomeModel.welcome_cache self) ->
  WelcomeModel.alerts_cache self' = WelcomeModel.alerts_cache self ->
  evolves guild_id self self'.
Proof.
  intros Hh Hw Ha. unfold evolves. rewrite Hh, Hw, Ha.
  split; [|split; [|split]]; eauto.
  - intros gid Hne. apply lookup_delete_ne. congruence.
  - right. left. apply lookup_delete_eq.
Qed.

Lemma evolves_assign guild_id (self self' : model) ref s :
  WelcomeModel.welcome_cache self !! guild_id = Some ref ->
  WelcomeModel.heap self' = alter (assignment s) ref (WelcomeModel.heap self) ->
  WelcomeModel.welcome_cache self' = WelcomeModel.welcome_cache self ->
  WelcomeModel.alerts_cache self' = WelcomeModel.alerts_cache self ->
  evolves guild_id self self'.
Proof.
  intros Hc Hh Hw Ha. unfold evolves. rewrite Hh, Hw, Ha.
  split; [|split; [|split]]; eauto.
  intros ref' st Hst. destruct (decide (ref' = ref)) as [->|Hne].
  - exists (assignment s st). rewrite list_lookup_alter_eq, Hst.
    split; [reflexivity|]. split; [apply assignment_guild|]. auto.
  - exists st. rewrite list_lookup_alter_ne by congruence. auto.
Qed.

Lemma evolves_alerts guild_id (self self' : model) :
  WelcomeModel.heap self' = WelcomeModel.heap self ->
  WelcomeModel.welcome_cache self' = WelcomeModel.welcome_cache self ->
  WelcomeModel.alerts_cache self' = <[guild_id := ∅]> (WelcomeModel.alerts_cache self) ->
  evolves guild_id self self'.
Proof.
  intros Hh Hw Ha. unfold evolves. rewrite Hh, Hw, Ha.
  split; [|split; [|split]]; eauto.
  intros gid d. destruct (decide (gid = guild_id)) as [->|Hne].
  - rewrite lookup_insert_eq. intros [= <-]. auto.
  - rewrite lookup_insert_ne by congruence. auto.
Qed.

Lemma add_welcome_evolves guild self :
  evolves (Guild.id guild) self (WelcomeModel.add_welcome execute guild self).1.
Proof.
  rewrite add_welcome_eq.
  destruct (execute _ (WelcomeModel.sql self)) as [conn [r|e]]; cbn [fst].
  - apply (evolves_new _ _ (WelcomeStorage.default guild)); reflexivity.
  - eapply evolves_garbage; reflexivity.
Qed.

Lemma get_welcome_evolves guild self :
  evolves (Guild.id guild) self (WelcomeModel.get_welcome execute guild self).1.
Proof.
  destruct (WelcomeModel.welcome_cache self !! Guild.id guild) as [ref|] eqn:E.
  - rewrite (get_welcome_hit _ _ _ E). apply evolves_same; reflexivity.
  - unfold WelcomeModel.get_welcome.
    unfold WelcomeModel.bindM at 1. unfold WelcomeModel.welcome_cache_contains.
    rewrite E. rewrite bool_decide_eq_false_2 by (intros [? [=]]).
    unfold WelcomeModel.bindM at 1. unfold WelcomeModel.sql_execute at 1.
    destruct (execute _ (WelcomeModel.sql self)) as [conn [r|e]];
      [|apply evolves_same; reflexivity].
    destruct (negb (WelcomeModel.truth (WelcomeModel.rowcount r))).
    + unfold WelcomeModel.bindM. rewrite add_welcome_eq. cbn.
      destruct (execute _ conn) as [conn' [r'|e']].
      * unfold WelcomeModel.welcome_cache_getitem. cbn. rewrite lookup_insert_eq.
        apply (evolves_new _ _ (WelcomeStorage.default guild)); reflexivity.
      * eapply evolves_garbage; reflexivity.
    + unfold WelcomeModel.bindM, WelcomeModel.lift.
      destruct (WelcomeModel.fetchone_unpack5 r) as [[[[[wm gm] am] doa] wcid]|e];
        [|apply evolves_same; reflexivity].
      cbn. apply (evolves_new _ _ (WelcomeStorage.__init__ guild wm gm am doa wcid));
        reflexivity.
Qed.

Lemma set_setting_evolves guild s self :
  evolves (Guild.id guild) self (set_setting execute guild s self).1.
Proof.
  rewrite set_setting_eq. destruct (asserted guild s); [|apply evolves_same; reflexivity].
  destruct (execute _ (WelcomeModel.sql self)) as [conn [r|e]];
    [|apply evolves_same; reflexivity].
  destruct (WelcomeModel.welcome_cache self !! Guild.id guild) as [ref|] eqn:E;
    [|apply evolves_same; reflexivity].
  eapply evolves_assign; [exact E|reflexivity..].
Qed.

Lemma add_alert_evolves guild (alert : Alert) self :
  evolves (Guild.id guild) self
    (WelcomeModel.add_alert str_value execute guild alert self).1.
Proof.
  unfold WelcomeModel.add_alert, WelcomeModel.bindM, WelcomeModel.alerts_cache_getitem.
  destruct (WelcomeModel.alerts_cache self !! Guild.id guild) as [d|] eqn:E;
    cbv beta iota;
    destruct (bool_decide (WelcomeModel.key alert ∈ _));
    unfold WelcomeModel.sql_execute, WelcomeModel.ret; cbn;
    destruct (execute _ (WelcomeModel.sql self)) as [conn [r|e]]; cbn;
    solve [apply evolves_same; reflexivity | apply evolves_alerts; reflexivity].
Qed.

(** Whatever the call and whether it returns or raises. *)
Lemma state_after_evolves c self :
  evolves (Guild.id (guild_of c)) self
    (state_after str_value parse_value execute c self).
Proof.
  destruct c as [guild|guild|guild|guild s|guild alert|guild key|guild|guild];
    cbn [state_after guild_of].
  - apply add_welcome_evolves.
  - rewrite remove_welcome_eq.
    destruct (execute _ (WelcomeModel.sql self)) as [conn [r|e]]; cbn [fst].
    + apply evolves_pop; reflexivity.
    + apply evolves_same; reflexivity.
  - apply get_welcome_evolves.
  - apply set_setting_evolves.
  - apply add_alert_evolves.
  - rewrite remove_alert_eq.
    destruct (execute _ (WelcomeModel.sql self)) as [conn [r|e]];
      apply evolves_same; reflexivity.
  - rewrite get_all_alerts_state. apply evolves_same; reflexivity.
  - rewrite remove_all_alerts_state. apply evolves_same; reflexivity.
Qed.

(** *** What the caches keep *)

Lemma caches_ok_init (sql : connection) :
  caches_ok (WelcomeModel.__init__ (JoinAlertKey := JoinAlertKey) sql).
Proof.
  split; cbn; intros gid x; rewrite lookup_empty; discriminate.
Qed.

Lemma evolves_caches_ok guild_id (self self' : model) :
  evolves guild_id self self' -> caches_ok self -> caches_ok self'.
Proof.
  intros (Hheap & Hother & Hguild & Halerts) (Hw & Ha). split.
  - intros gid ref Hc. destruct (decide (gid = guild_id)) as [->|Hne].
    + destruct Hguild as [Hsame|[Hnone|(ref' & st & Hc' & _ & Hst & Hg)]].
      * rewrite Hsame in Hc. destruct (Hw _ _ Hc) as (st & Hst & Hg).
        destruct (Hheap _ _ Hst) as (st' & Hst' & Hg' & _).
        exists st'. split; [exact Hst'|congruence].
      * congruence.
      * rewrite Hc' in Hc. injection Hc as <-. eauto.
    + rewrite (Hother _ Hne) in Hc. destruct (Hw _ _ Hc) as (st & Hst & Hg).
      destruct (Hheap _ _ Hst) as (st' & Hst' & Hg' & _).
      exists st'. split; [exact Hst'|congruence].
  - intros gid d Hd. destruct (Halerts _ _ Hd) as [->|Hd']; [reflexivity|].
    exact (Ha _ _ Hd').
Qed.

Lemma run_caches_ok calls (self : model) :
  caches_ok self -> caches_ok (run str_value parse_value execute calls self).
Proof.
  revert self. induction calls as [|c calls IH]; intros self Hok; [exact Hok|].
  cbn [run foldl]. apply IH.
  exact (evolves_caches_ok _ _ _ (state_after_evolves c self) Hok).
Qed.

(** Two guilds do not share a storage object. *)
Lemma caches_ok_no_sharing (self : model) g1 g2 ref :
  caches_ok self ->
  WelcomeModel.welcome_cache self !! g1 = Some ref ->
  WelcomeModel.welcome_cache self !! g2 = Some ref ->
  g1 = g2.
Proof.
  intros (Hw & _) H1 H2.
  destruct (Hw _ _ H1) as (st1 & Hst1 & Hg1).
  destruct (Hw _ _ H2) as (st2 & Hst2 & Hg2). congruence.
Qed.

(** *** A storage object that left the cache *)

Lemma evolves_detached guild_id (self self' : model) ref storage :
  evolves guild_id self self' ->
  detached ref self ->
  WelcomeModel.heap self !! ref = Some storage ->
  detached ref self' /\ WelcomeModel.heap self' !! ref = Some storage.
Proof.
  intros (Hheap & Hother & Hguild & _) (Hlt & Hfree) Hst.
  destruct (Hheap _ _ Hst) as (st' & Hst' & _ & [->|Hc]);
    [|destruct (Hfree _ _ Hc); reflexivity].
  split; [|exact Hst']. split; [eapply lookup_lt_Some; exact Hst'|].
  intros gid ref' Hc. destruct (decide (gid = guild_id)) as [->|Hne].
  - destruct Hguild as [Hsame|[Hnone|(ref'' & st'' & Hc' & Hge & _)]].
    + rewrite Hsame in Hc. eauto.
    + congruence.
    + rewrite Hc' in Hc. injection Hc as <-. lia.
  - rewrite (Hother _ Hne) in Hc. eauto.
Qed.

Lemma run_detached calls (self : model) ref storage :
  detached ref self ->
  WelcomeModel.heap self !! ref = Some storage ->
  detached ref (run str_value parse_value execute calls self)
  /\ WelcomeModel.heap (run str_value parse_value execute calls self) !! ref
     = Some storage.
Proof.
  revert self. induction calls as [|c calls IH]; intros self Hd Hst; [auto|].
  cbn [run foldl].
  destruct (evolves_detached _ _ _ _ _ (state_after_evolves c self) Hd Hst)
    as [Hd' Hst'].
  apply IH; assumption.
Qed.

End Welcome_facts.

(** ** The welcome model on the reference database *)

Section Coherence_facts.
Import Welcome.

Context {JoinAlertKey : Type} `{!EqDecision JoinAlertKey, !Countable JoinAlertKey}.
Context {ValueRelationship value : Type}.

#[local] Abbreviation database := (@ReferenceDB.t JoinAlertKey _ _ ValueRelationship).
#[local] Abbreviation Alert := (@WelcomeModel.Alert JoinAlertKey ValueRelationship value).
#[local] Abbreviation model := (@WelcomeModel.t JoinAlertKey _ _ database).

Variable str_value : value -> str.
Variable parse_value : JoinAlertKey -> str -> outcome value.

(** [get_welcome] for a guild that is not cached: the storage of the row
    of the guild, or the default storage and a new row. *)
Lemma get_welcome_from_the_database guild (self : model) :
  WelcomeModel.welcome_cache self !! Guild.id guild = None ->
  WelcomeModel.get_welcome ReferenceDB.execute guild self
  = match ReferenceDB.welcome (WelcomeModel.sql self) !! Guild.id guild with
    | Some (wm, gm, am, doa, wcid) =>
        ({| WelcomeModel.sql := WelcomeModel.sql self;
            WelcomeModel.heap :=
              WelcomeModel.heap self ++ [WelcomeStorage.__init__ guild wm gm am doa wcid];
            WelcomeModel.welcome_cache :=
              <[Guild.id guild := length (WelcomeModel.heap self)]>
                (WelcomeModel.welcome_cache self);
            WelcomeModel.alerts_cache := WelcomeModel.alerts_cache self |},
         Return (length (WelcomeModel.heap self)))
    | None =>
        ({| WelcomeModel.sql :=
              {| ReferenceDB.welcome :=
                   <[Guild.id guild := (None, None, None, true, None)]>
                     (ReferenceDB.welcome (WelcomeModel.sql self));
                 ReferenceDB.join_alerts :=
                   ReferenceDB.join_alerts (WelcomeModel.sql self) |};
            WelcomeModel.heap := WelcomeModel.heap self ++ [WelcomeStorage.default guild];
            WelcomeModel.welcome_cache :=
              <[Guild.id guild := length (WelcomeModel.heap self)]>
                (WelcomeModel.welcome_cache self);
            WelcomeModel.alerts_cache := WelcomeModel.alerts_cache self |},
         Return (length (WelcomeModel.heap self)))
    end.
Proof.
  intros E. unfold WelcomeModel.get_welcome.
  unfold WelcomeModel.bindM at 1. unfold WelcomeModel.welcome_cache_contains.
  rewrite E. rewrite bool_decide_eq_false_2 by (intros [? [=]]).
  unfold WelcomeModel.bindM at 1. unfold WelcomeModel.sql_execute at 1.
  cbn [ReferenceDB.execute].
  destruct (ReferenceDB.welcome (WelcomeModel.sql self) !! Guild.id guild)
    as [[[[[wm gm] am] doa] wcid]|] eqn:Erow.
  - cbn. destruct self; reflexivity.
  - cbn [fmap option_fmap option_map ReferenceDB.selected WelcomeModel.rowcount
         WelcomeModel.truth].
    match goal with |- context [if ?b then _ else _] => change b with true end.
    cbv iota. unfold WelcomeModel.bindM. rewrite add_welcome_eq.
    cbn [ReferenceDB.execute WelcomeModel.sql]. rewrite Erow.
    cbn. unfold WelcomeModel.welcome_cache_getitem. cbn.
    rewrite lookup_insert_eq. reflexivity.
Qed.

Lemma coherent_init (db : database) : coherent (WelcomeModel.__init__ db).
Proof. intros gid ref st Hc. cbn in Hc. rewrite lookup_empty in Hc. discriminate. Qed.

Lemma update_columns s storage wcid :
  exists wcid',
    ReferenceDB.update (values_of s) (columns_of storage wcid)
    = columns_of (assignment s storage) wcid'
    /\ (WelcomeStorage.welcome_channel storage = None
          \/ WelcomeStorage.channel_id storage = wcid ->
        WelcomeStorage.welcome_channel (assignment s storage) = None
        \/ WelcomeStorage.channel_id (assignment s storage) = wcid').
Proof.
  destruct s as [v|v|v|v|ch]; cbn; eexists; (split; [reflexivity|]); auto.
Qed.

Lemma coherent_same (self self' : model) :
  WelcomeModel.heap self' = WelcomeModel.heap self ->
  WelcomeModel.welcome_cache self' = WelcomeModel.welcome_cache self ->
  ReferenceDB.welcome (WelcomeModel.sql self')
  = ReferenceDB.welcome (WelcomeModel.sql self) ->
  coherent self -> coherent self'.
Proof. intros Hh Hw Hd Hcoh. unfold coherent. rewrite Hh, Hw, Hd. exact Hcoh. Qed.

(** A new object, cached for its guild, with its row in the table. *)
Lemma coherent_new (self self' : model) storage wcid :
  caches_ok self -> coherent self ->
  WelcomeModel.heap self' = WelcomeModel.heap self ++ [storage] ->
  WelcomeModel.welcome_cache self'
  = <[Guild.id (WelcomeStorage.guild storage) := length (WelcomeModel.heap self)]>
      (WelcomeModel.welcome_cache self) ->
  ReferenceDB.welcome (WelcomeModel.sql self') !! Guild.id (WelcomeStorage.guild storage)
  = Some (columns_of storage wcid) ->
  (forall gid, gid <> Guild.id (WelcomeStorage.guild storage) ->
     ReferenceDB.welcome (WelcomeModel.sql self') !! gid
     = ReferenceDB.welcome (WelcomeModel.sql self) !! gid) ->
  WelcomeStorage.welcome_channel storage = None
  \/ WelcomeStorage.channel_id storage = wcid ->
  coherent self'.
Proof.
  intros [Hok _] Hcoh Hh Hw Hrow Hrows Hch gid ref st. rewrite Hh, Hw.
  destruct (decide (gid = Guild.id (WelcomeStorage.guild storage))) as [->|Hne].
  - rewrite lookup_insert_eq. intros [= <-].
    rewrite list_lookup_middle by reflexivity. intros [= <-]. eauto.
  - rewrite lookup_insert_ne by congruence. intros Hc.
    destruct (Hok _ _ Hc) as (st0 & Hst0 & _).
    rewrite lookup_app_l by (eapply lookup_lt_Some; eauto). intros Hst.
    rewrite (Hrows _ Hne). eauto.
Qed.

Lemma coherent_garbage (self self' : model) storage :
  caches_ok self -> coherent self ->
  WelcomeModel.heap self' = WelcomeModel.heap self ++ [storage] ->
  WelcomeModel.welcome_cache self' = WelcomeModel.welcome_cache self ->
  ReferenceDB.welcome (WelcomeModel.sql self')
  = ReferenceDB.welcome (WelcomeModel.sql self) ->
  coherent self'.
Proof.
  intros [Hok _] Hcoh Hh Hw Hd gid ref st. rewrite Hh, Hw, Hd. intros Hc.
  destruct (Hok _ _ Hc) as (st0 & Hst0 & _).
  rewrite lookup_app_l by (eapply lookup_lt_Some; eauto). eauto.
Qed.

Lemma columns_of_default guild :
  columns_of (WelcomeStorage.default guild) None = (None, None, None, true, None).
Proof. rewrite default_storage. reflexivity. Qed.

Lemma add_welcome_coherent guild (self : model) :
  caches_ok self -> coherent self ->
  coherent (WelcomeModel.add_welcome ReferenceDB.execute guild self).1.
Proof.
  intros Hok Hcoh. rewrite add_welcome_eq. cbn [ReferenceDB.execute].
  destruct (ReferenceDB.welcome (WelcomeModel.sql self) !! Guild.id guild) eqn:Erow;
    cbn [fst ReferenceDB.changed].
  - eapply coherent_garbage; eauto.
  - apply (coherent_new self _ (WelcomeStorage.default guild) None Hok Hcoh);
      try reflexivity.
    + cbn. rewrite lookup_insert_eq, columns_of_default. reflexivity.
    + intros gid Hne. cbn. apply lookup_insert_ne. cbn in Hne. congruence.
    + left. rewrite default_storage. reflexivity.
Qed.

Lemma get_welcome_coherent guild (self : model) :
  caches_ok self -> coherent self ->
  coherent (WelcomeModel.get_welcome ReferenceDB.execute guild self).1.
Proof.
  intros Hok Hcoh.
  destruct (WelcomeModel.welcome_cache self !! Guild.id guild) as [ref|] eqn:E.
  - rewrite (get_welcome_hit _ _ _ _ E). exact Hcoh.
  - rewrite (get_welcome_from_the_database _ _ E).
    destruct (ReferenceDB.welcome (WelcomeModel.sql self) !! Guild.id guild)
      as [[[[[wm gm] am] doa] wcid]|] eqn:Erow; cbn [fst].
    + apply (coherent_new self _ (WelcomeStorage.__init__ guild wm gm am doa wcid)
               wcid Hok Hcoh); try reflexivity.
      * cbn. exact Erow.
      * unfold WelcomeStorage.channel_id, WelcomeStorage.welcome_channel_id.
        cbn [WelcomeStorage.__init__ WelcomeStorage.welcome_channel].
        destruct (utils_get (Guild.text_channels guild) wcid) as [ch|] eqn:Ech;
          [|auto].
        right. apply utils_get_Some in Ech as [_ ->]. reflexivity.
    + apply (coherent_new self _ (WelcomeStorage.default guild) None Hok Hcoh);
        try reflexivity.
      * cbn. rewrite lookup_insert_eq, columns_of_default. reflexivity.
      * intros gid Hne. cbn. apply lookup_insert_ne. cbn in Hne. congruence.
      * left. rewrite default_storage. reflexivity.
Qed.

Lemma set_setting_coherent guild s (self : model) :
  caches_ok self -> coherent self ->
  coherent (set_setting ReferenceDB.execute guild s self).1.
Proof.
  intros Hok Hcoh. rewrite set_setting_eq.
  destruct (asserted guild s); [|exact Hcoh].
  cbn [update_of ReferenceDB.execute ReferenceDB.changed].
  destruct (WelcomeModel.welcome_cache self !! Guild.id guild) as [ref|] eqn:E;
    cbn [fst]; intros gid ref' st'; cbn.
  - destruct (decide (gid = Guild.id guild)) as [->|Hne].
    + rewrite E. intros [= <-]. rewrite list_lookup_alter_eq.
      destruct (WelcomeModel.heap self !! ref) as [st|] eqn:Est; [|discriminate].
      cbn. intros [= <-]. destruct (Hcoh _ _ _ E Est) as (wcid & Hrow & Hch).
      destruct (update_columns s st wcid) as (wcid' & Hup & Hch').
      exists wcid'. rewrite lookup_alter_eq, Hrow.
      cbn [fmap option_fmap option_map]. rewrite Hup. auto.
    + intros Hc.
      assert (ref' <> ref) as Hr.
      { intros ->. apply Hne. exact (caches_ok_no_sharing _ _ _ _ Hok Hc E). }
      rewrite list_lookup_alter_ne by congruence. intros Hst.
      rewrite lookup_alter_ne by congruence. eauto.
  - destruct (decide (gid = Guild.id guild)) as [->|Hne]; [congruence|].
    intros Hc Hst. rewrite lookup_alter_ne by congruence. eauto.
Qed.

Lemma state_after_coherent c (self : model) :
  caches_ok self -> coherent self ->
  coherent (state_after str_value parse_value ReferenceDB.execute c self).
Proof.
  intros Hok Hcoh.
  destruct c as [guild|guild|guild|guild s|guild alert|guild key|guild|guild];
    cbn [state_after].
  - apply add_welcome_coherent; assumption.
  - rewrite remove_welcome_eq. cbn [ReferenceDB.execute ReferenceDB.changed fst].
    intros gid ref st. cbn.
    destruct (decide (gid = Guild.id guild)) as [->|Hne].
    + rewrite lookup_delete_eq. discriminate.
    + rewrite !lookup_delete_ne by congruence. apply Hcoh.
  - apply get_welcome_coherent; assumption.
  - apply set_setting_coherent; assumption.
  - assert (WelcomeModel.alerts_cache self !! Guild.id guild = None
            \/ WelcomeModel.alerts_cache self !! Guild.id guild = Some ∅) as Ha.
    { destruct Hok as [_ Ha].
      destruct (WelcomeModel.alerts_cache self !! Guild.id guild) as [d|] eqn:E;
        [|auto].
      right. rewrite (Ha _ _ E). reflexivity. }
    rewrite (add_alert_eq _ _ _ _ _ Ha). cbv zeta. cbn [ReferenceDB.execute].
    destruct (ReferenceDB.join_alerts (WelcomeModel.sql self) !! _);
      cbn [fst ReferenceDB.changed]; exact Hcoh.
  - rewrite remove_alert_eq. cbn [ReferenceDB.execute ReferenceDB.changed].
    exact Hcoh.
  - rewrite get_all_alerts_state. exact Hcoh.
  - rewrite remove_all_alerts_state. exact Hcoh.
Qed.

Lemma run_coherent calls (self : model) :
  caches_ok self -> coherent self ->
  coherent (run str_value parse_value ReferenceDB.execute calls self).
Proof.
  revert self. induction calls as [|c calls IH]; intros self Hok Hcoh; [exact Hcoh|].
  cbn [run foldl]. apply IH.
  - exact (evolves_caches_ok _ _ _ (state_after_evolves _ _ _ c self) Hok).
  - apply state_after_coherent; assumption.
Qed.

End Coherence_facts.

(** ** The latency [ping] shows *)

Lemma timedelta_microseconds days seconds microseconds :
  Miscellaneous.microseconds (Miscellaneous.timedelta_new days seconds microseconds)
  = (microseconds mod 1000000)%Z.
Proof. reflexivity. Qed.

(** The microseconds of the difference are the elapsed time modulo one
    second. *)
Lemma ping_mod_second snowflake_time now message_id :
  Miscellaneous.ping snowflake_time now message_id
  = ((total_microseconds now - total_microseconds (snowflake_time message_id))
     mod 1000000)%Z.
Proof.
  unfold Miscellaneous.ping, Miscellaneous.duration, Miscellaneous.datetime_sub.
  rewrite timedelta_microseconds. unfold total_microseconds.
  set (sent := snowflake_time message_id).
  replace ((Miscellaneous.toordinal now * 86400 + Miscellaneous.second_of_day now)
             * 1000000 + Miscellaneous.microsecond now
           - ((Miscellaneous.toordinal sent * 86400 + Miscellaneous.second_of_day sent)
                * 1000000 + Miscellaneous.microsecond sent))%Z
    with (Miscellaneous.microsecond now - Miscellaneous.microsecond sent
          + ((Miscellaneous.toordinal now * 86400 + Miscellaneous.second_of_day now)
             - (Miscellaneous.toordinal sent * 86400
                + Miscellaneous.second_of_day sent)) * 1000000)%Z by lia.
  symmetry. apply Z.mod_add. lia.
Qed.


(** * Part IV: the properties of the filter *)

Section Claims.
Import re.

(** C1 (the code departs from the claim).  In the groups branch
    [build_regex] writes the class of a character that has a group and
    writes every other character as it is, not escaped, where [re.escape]
    puts a backslash before a special character.  For the phrase "a.b*c"
    and groups that hold a class for "a" only, the pattern is "[aа].b*c":
    the matcher does not match its own phrase "a.b*c", and it matches
    "axbbc".  The fallback branch escapes the same phrase to "a\.b\*c". *)
Theorem groups_branch_leaves_metacharacters_bare :
  (forall (text : str) (groups : list group),
     Filter.build_regex text groups
     = concat (map (fun char =>
                      match group_of groups char with
                      | Some g => class_of g
                      | None => [char]
                      end) text))
  /\ (forall char, is_special char = true -> escape [char] = lit "\" ++ [char])
  /\ Filter.build_regex (lit "a.b*c") (latin_a_oracle (lit "a.b*c"))
     = lit "[a" ++ [0x430] ++ lit "].b*c"
  /\ Filter.init_pattern no_confusables (lit "a.b*c") = lit "a\.b\*c"
  /\ exists m,
       Filter.__init__ latin_a_oracle (lit "a.b*c") = Ok m
       /\ Filter.matches ascii_lower m (lit "a.b*c") = false
       /\ Filter.matches ascii_lower m (lit "axbbc") = true.
Proof.
  split.
  { intros text groups. rewrite build_regex_eq. f_equal.
    apply map_ext. intros char. apply fragment_eq. }
  split.
  { intros char H. unfold escape, escape_char. cbn [flat_map].
    rewrite H. reflexivity. }
  split; [reflexivity|]. split; [reflexivity|].
  eexists. split; [reflexivity|]. split; vm_compute; reflexivity.
Qed.

(** C2, as the spec states it, fails: with no confusables for "ab", the
    matcher of "ab" matches "a b", which does not contain "ab". *)
Lemma fallback_matches_across_a_space :
  exists m,
    Filter.__init__ no_confusables (lit "ab") = Ok m
    /\ Filter.matches ascii_lower m (lit "a b") = true
    /\ ci_substring ascii_lower (lit "ab") (lit "a b") = false.
Proof.
  eexists. split; [reflexivity|]. split; vm_compute; reflexivity.
Qed.

(** C2 (amended).  For every phrase [p] that the oracle reports as having
    no confusables, construction succeeds; the compiled pattern finds a
    match in exactly the strings that contain [p] as a case-insensitive
    substring; and the matcher matches exactly the contents that contain
    [p] as a case-insensitive substring either as they are or after every
    whitespace look-alike is removed. *)
Theorem fallback_matches_iff_substring_of_a_candidate
    (lower : N -> N) (is_confusable : str -> list group) (p content : str) :
  is_confusable p = [] ->
  exists m,
    Filter.__init__ is_confusable p = Ok m
    /\ bool_decide (is_Some (search lower (Filter.regex m) content))
       = ci_substring lower p content
    /\ Filter.matches lower m content
       = ci_substring lower p content
         || ci_substring lower p (filter (fun ch => ch ∉ UNICODE_SPACES) content).
Proof.
  intros H. eexists. split; [apply (init_fallback _ _ H)|].
  rewrite matches_eq. cbn [Filter.regex]. rewrite !search_escaped.
  split; reflexivity.
Qed.

(** C2 (amended) at the phrase "Hello", the content "say HEL LO" and an
    oracle without confusables. *)
Lemma fallback_matches_iff_substring_witness :
  exists m,
    Filter.__init__ no_confusables (lit "Hello") = Ok m
    /\ bool_decide (is_Some (search ascii_lower (Filter.regex m) (lit "say HEL LO")))
       = ci_substring ascii_lower (lit "Hello") (lit "say HEL LO")
    /\ Filter.matches ascii_lower m (lit "say HEL LO")
       = ci_substring ascii_lower (lit "Hello") (lit "say HEL LO")
         || ci_substring ascii_lower (lit "Hello")
              (filter (fun ch => ch ∉ UNICODE_SPACES) (lit "say HEL LO")).
Proof.
  apply (fallback_matches_iff_substring_of_a_candidate
           ascii_lower no_confusables (lit "Hello") (lit "say HEL LO")).
  reflexivity.
Defined.




(** C4 (the code departs from the claim).  Construction raises [re.error]
    when a character without a group is a metacharacter that leaves the
    pattern ill-formed.  Whatever the oracle: when it answers with groups
    and none of them is for the last character of the phrase, a phrase
    that ends in "[", "(" or a backslash does not compile.  With a class
    for "a" only, "a(", "a)", "a[", "a\" and "*a" do not compile. *)
Theorem construction_fails_on_bare_metacharacter :
  (forall (is_confusable : str -> list group) (text : str) (last : N),
     is_confusable (text ++ [last]) <> [] ->
     no_bare_meta (is_confusable (text ++ [last])) text = true ->
     group_of (is_confusable (text ++ [last])) last = None ->
     last = ord "[" \/ last = ord "(" \/ last = ord "\" ->
     Filter.__init__ is_confusable (text ++ [last]) = Raise re_error)
  /\ Filter.init_pattern latin_a_oracle (lit "a(") = lit "[a" ++ [0x430] ++ lit "]("
  /\ Filter.__init__ latin_a_oracle (lit "a(") = Raise re_error
  /\ Filter.__init__ latin_a_oracle (lit "a)") = Raise re_error
  /\ Filter.__init__ latin_a_oracle (lit "a[") = Raise re_error
  /\ Filter.__init__ latin_a_oracle (lit "a\") = Raise re_error
  /\ Filter.__init__ latin_a_oracle (lit "*a") = Raise re_error.
Proof.
  split; [exact init_raises_on_open|].
  repeat split; vm_compute; reflexivity.
Qed.


(** C6 (the code departs from the claim).  A "$" that reaches the pattern
    bare is an end-of-string assertion.  Whatever the oracle: when it
    answers with groups and none of them is for "$", the matcher of a
    phrase with a "$" before its end (and no other metacharacter left
    bare) matches no content without a newline, so it does not match its
    own phrase.  With a class for "a" only, the matchers of "a$b" and of
    "a+b" are built and do not match their own phrases. *)
Theorem matcher_misses_its_own_phrase :
  (forall (lower : N -> N) (is_confusable : str -> list group)
          (pre post content : str),
     is_confusable (pre ++ lit "$" ++ post) <> [] ->
     no_bare_meta (is_confusable (pre ++ lit "$" ++ post)) pre = true ->
     no_bare_meta (is_confusable (pre ++ lit "$" ++ post)) post = true ->
     group_of (is_confusable (pre ++ lit "$" ++ post)) (ord "$") = None ->
     post <> [] ->
     0x0a ∉ content ->
     exists m,
       Filter.__init__ is_confusable (pre ++ lit "$" ++ post) = Ok m
       /\ Filter.matches lower m content = false)
  /\ (exists m,
        Filter.__init__ latin_a_oracle (lit "a$b") = Ok m
        /\ pattern (Filter.regex m) = lit "[a" ++ [0x430] ++ lit "]$b"
        /\ Filter.matches ascii_lower m (lit "a$b") = false)
  /\ (exists m,
        Filter.__init__ latin_a_oracle (lit "a+b") = Ok m
        /\ pattern (Filter.regex m) = lit "[a" ++ [0x430] ++ lit "]+b"
        /\ Filter.matches ascii_lower m (lit "a+b") = false).
Proof.
  split; [exact bare_dollar_matches_nothing|].
  split; (eexists; split; [vm_compute; reflexivity|];
          split; vm_compute; reflexivity).
Qed.

(** C7.  Equality of two matchers is equality of their texts, whatever
    their compiled patterns; a matcher built from a text holds that text;
    the hash depends on the text only; it is the string hash of the text
    xor the salt 0x2C6F024ED28, which is not zero, so neither the value of
    [__hash__] nor what the built-in [hash] makes of it equals the string
    hash of the text; and the value of [__hash__] is in the range of a
    machine word when the string hash is. *)
Theorem identity_is_keyed_on_text
    (hash_str : str -> Z) (m1 m2 : Filter.t) :
  Filter.__eq__ (Filter.PyFilter m1) (Filter.PyFilter m2)
  = Ok (bool_decide (Filter.text m1 = Filter.text m2))
  /\ (Filter.__eq__ (Filter.PyFilter m1) (Filter.PyFilter m2) = Ok true
      <-> Filter.text m1 = Filter.text m2)
  /\ (forall (is_confusable : str -> list group) (text : str) (m : Filter.t),
        Filter.__init__ is_confusable text = Ok m -> Filter.text m = text)
  /\ (forall (text : str) (r1 r2 : Pattern),
        Filter.__hash__ hash_str {| Filter.text := text; Filter.regex := r1 |}
        = Filter.__hash__ hash_str {| Filter.text := text; Filter.regex := r2 |})
  /\ Filter.__hash__ hash_str m1
     = Z.lxor (hash_str (Filter.text m1)) 0x2C6F024ED28
  /\ (0x2C6F024ED28 <> 0)%Z
  /\ Filter.__hash__ hash_str m1 <> hash_str (Filter.text m1)
  /\ Filter.builtin_hash (Filter.__hash__ hash_str m1) <> hash_str (Filter.text m1)
  /\ ((-2^63 <= hash_str (Filter.text m1) < 2^63)%Z ->
      (-2^63 <= Filter.__hash__ hash_str m1 < 2^63)%Z).
Proof.
  assert (Hne : Filter.__hash__ hash_str m1 <> hash_str (Filter.text m1)).
  { unfold Filter.__hash__. intros E.
    assert (Z.lxor (hash_str (Filter.text m1))
              (Z.lxor (hash_str (Filter.text m1)) 0x2C6F024ED28) = 0%Z) as E0
      by (rewrite E; apply Z.lxor_nilpotent).
    rewrite <- Z.lxor_assoc, Z.lxor_nilpotent, Z.lxor_0_l in E0. discriminate E0. }
  split; [reflexivity|]. split.
  { cbn. split.
    - intros [= E]. apply bool_decide_eq_true in E. exact E.
    - intros E. rewrite bool_decide_eq_true_2 by assumption. reflexivity. }
  split.
  { intros is_confusable text m. unfold Filter.__init__.
    destruct (compile _ true); cbn [bind]; [|discriminate..].
    intros [= <-]. reflexivity. }
  split; [reflexivity|]. split; [reflexivity|]. split; [discriminate|].
  split; [exact Hne|]. split.
  - unfold Filter.builtin_hash.
    destruct (Z.eqb_spec (Filter.__hash__ hash_str m1) (-1)) as [E|_]; [|exact Hne].
    unfold Filter.__hash__ in E. intros E2.
    assert (Z.lxor (Z.lxor (hash_str (Filter.text m1)) 0x2C6F024ED28) 0x2C6F024ED28
            = Z.lxor (-1) 0x2C6F024ED28) as E3 by (rewrite E; reflexivity).
    rewrite Z.lxor_assoc, Z.lxor_nilpotent, Z.lxor_0_r, <- E2 in E3.
    discriminate E3.
  - apply lxor_salt_range.
Qed.

(** C8.  Whatever the oracle answers, the empty phrase is accepted, its
    pattern is the empty pattern, and its matcher matches every content,
    the empty one too. *)
Theorem empty_phrase_matches_everything
    (lower : N -> N) (is_confusable : str -> list group) (content : str) :
  exists m,
    Filter.__init__ is_confusable [] = Ok m
    /\ pattern (Filter.regex m) = []
    /\ Filter.matches lower m content = true
    /\ Filter.matches lower m [] = true.
Proof.
  assert (Hp : Filter.init_pattern is_confusable [] = []).
  { unfold Filter.init_pattern.
    destruct (negb _); [apply build_regex_empty|reflexivity]. }
  unfold Filter.__init__. rewrite Hp. eexists. split; [reflexivity|].
  split; [reflexivity|].
  split; rewrite matches_eq; apply orb_true_intro; left;
    apply bool_decide_eq_true_2; unfold search; cbn;
    [destruct content|]; cbn; eauto.
Qed.

(** C9.  For every matcher [m] and every value [x] that is not a matcher,
    [m == x] is [False]: the method returns, and it returns a boolean. *)
Theorem eq_with_a_non_matcher_is_False (m : Filter.t) (x : Filter.object) :
  Filter.isinstance_Filter x = false ->
  Filter.__eq__ (Filter.PyFilter m) x = Ok false.
Proof. intros H. unfold Filter.__eq__. cbn. rewrite H. reflexivity. Qed.

(** C9 at the matcher of "badword" and the string "badword". *)
Lemma eq_with_a_non_matcher_witness :
  Filter.__eq__ (Filter.PyFilter badword_matcher) (Filter.PyStr (lit "badword"))
  = Ok false.
Proof.
  apply (eq_with_a_non_matcher_is_False badword_matcher
           (Filter.PyStr (lit "badword"))).
  reflexivity.
Defined.




End Claims.

(** * Part V: further properties *)

(** ** cogs/filter/filter.py *)

Section Filter_properties.
Import re.





End Filter_properties.

(** ** sql/models/welcome.py *)

Section Welcome_properties.
Import Welcome.

Context {JoinAlertKey : Type} `{!EqDecision JoinAlertKey, !Countable JoinAlertKey}.
Context {ValueRelationship value connection : Type}.

#[local] Abbreviation statement := (@WelcomeModel.statement JoinAlertKey ValueRelationship).
#[local] Abbreviation ResultProxy := (@WelcomeModel.ResultProxy JoinAlertKey ValueRelationship).
#[local] Abbreviation Alert := (@WelcomeModel.Alert JoinAlertKey ValueRelationship value).
#[local] Abbreviation model := (@WelcomeModel.t JoinAlertKey _ _ connection).

Variable str_value : value -> str.
Variable parse_value : JoinAlertKey -> str -> outcome value.
Variable execute : statement -> connection -> connection * outcome ResultProxy.

(** X3.  A [WelcomeStorage] keeps a channel of the guild, not the id it
    was built with.  With [discord.utils.get] as the library documents
    it (the first element with the attribute asked for, or [None]), the
    [channel] of a new storage is the first text channel of the guild
    with the id it was built with: a text channel with that id that no
    text channel with that id comes before.  It is [None] exactly when
    no text channel of the guild has the id (as for the id [None]).
    [channel_id] is the id the storage was built with when a text
    channel of the guild has it, and [None] otherwise. *)
Theorem storage_channel_is_looked_up_in_the_guild
    (guild : Guild.t) (welcome_message goodbye_message agreed_message : option str)
    (delete_on_agree : bool) (welcome_channel_id : option Z) :
  let storage :=
    WelcomeStorage.__init__ guild welcome_message goodbye_message agreed_message
      delete_on_agree welcome_channel_id in
  (forall ch,
     WelcomeStorage.channel storage = Some ch
     <-> exists i,
           Guild.text_channels guild !! i = Some ch
           /\ Some (TextChannel.id ch) = welcome_channel_id
           /\ forall j ch',
                Guild.text_channels guild !! j = Some ch' -> (j < i)%nat ->
                Some (TextChannel.id ch') <> welcome_channel_id)
  /\ (WelcomeStorage.channel storage = None
      <-> forall ch, ch ∈ Guild.text_channels guild ->
                     Some (TextChannel.id ch) <> welcome_channel_id)
  /\ ((exists ch, ch ∈ Guild.text_channels guild
                  /\ Some (TextChannel.id ch) = welcome_channel_id) ->
      WelcomeStorage.channel_id storage = welcome_channel_id)
  /\ ((forall ch, ch ∈ Guild.text_channels guild ->
                  Some (TextChannel.id ch) <> welcome_channel_id) ->
      WelcomeStorage.channel_id storage = None).
Proof.
  intros storage. split; [|split; [|split]].
  - intros ch. apply utils_get_first.
  - apply utils_get_None.
  - intros (ch & Hin & Hid).
    unfold WelcomeStorage.channel_id, WelcomeStorage.welcome_channel_id.
    cbn [storage WelcomeStorage.__init__ WelcomeStorage.welcome_channel].
    destruct (utils_get (Guild.text_channels guild) welcome_channel_id) as [ch'|] eqn:E.
    + apply utils_get_Some in E as [_ ->]. reflexivity.
    + destruct (proj1 (utils_get_None _ _) E ch Hin Hid).
  - intros Hn. apply utils_get_None in Hn.
    unfold WelcomeStorage.channel_id, WelcomeStorage.welcome_channel_id.
    cbn [storage WelcomeStorage.__init__ WelcomeStorage.welcome_channel].
    rewrite Hn. reflexivity.
Qed.

(** X4.  [get_welcome] leaves the storage it returns in the cache and
    answers from the cache from then on: a second call, with any guild
    object of the same id, returns the same object and changes nothing,
    the connection included.  When the guild was cached before the call,
    the call itself changed nothing; when it was not, the object returned
    is a new one, the objects that were there are as they were, and no
    other entry of the cache changed. *)
Theorem get_welcome_answers_from_the_cache
    (guild : Guild.t) (self self' : model) (storage : nat) :
  WelcomeModel.get_welcome execute guild self = (self', Return storage) ->
  WelcomeModel.welcome_cache self' !! Guild.id guild = Some storage
  /\ (forall guild',
        Guild.id guild' = Guild.id guild ->
        WelcomeModel.get_welcome execute guild' self' = (self', Return storage))
  /\ (is_Some (WelcomeModel.welcome_cache self !! Guild.id guild) -> self' = self)
  /\ (WelcomeModel.welcome_cache self !! Guild.id guild = None ->
      storage = length (WelcomeModel.heap self)
      /\ (exists object,
            WelcomeModel.heap self' = WelcomeModel.heap self ++ [object]
            /\ WelcomeStorage.guild object = guild)
      /\ forall guild_id,
           guild_id <> Guild.id guild ->
           WelcomeModel.welcome_cache self' !! guild_id
           = WelcomeModel.welcome_cache self !! guild_id).
Proof.
  intros Hget.
  assert (WelcomeModel.welcome_cache self' !! Guild.id guild = Some storage) as Hc.
  { destruct (WelcomeModel.welcome_cache self !! Guild.id guild) as [ref|] eqn:E.
    - rewrite (get_welcome_hit _ _ _ _ E) in Hget. injection Hget as <- <-. exact E.
    - destruct (get_welcome_miss _ _ _ _ _ E Hget) as (st & _ & _ & _ & -> & _).
      apply lookup_insert_eq. }
  split; [exact Hc|]. split; [|split].
  - intros guild' Hid. apply get_welcome_hit. rewrite Hid. exact Hc.
  - intros [ref E]. rewrite (get_welcome_hit _ _ _ _ E) in Hget. congruence.
  - intros E. destruct (get_welcome_miss _ _ _ _ _ E Hget) as (st & -> & Hh & Hg & Hw & _).
    split; [reflexivity|]. split; [eauto|].
    intros gid Hne. rewrite Hw. apply lookup_insert_ne. congruence.
Qed.

(** X5.  A setter called for a cached guild, when its assertion holds
    and its UPDATE goes through, returns and assigns to the cached object
    itself: [get_welcome] still returns the same object, the object has
    the new value of the attribute set and its other attributes as
    before, every other object is as it was, and the caches hold the same
    references.  This is so for each of [set_welcome_message],
    [set_goodbye_message], [set_agreed_message], [set_delete_on_agree] and
    [set_welcome_channel]. *)
Theorem setter_assigns_to_the_cached_object
    (guild : Guild.t) (s : setting) (self : model) (storage : nat)
    (conn : connection) (result : ResultProxy) :
  WelcomeModel.welcome_cache self !! Guild.id guild = Some storage ->
  asserted guild s = true ->
  execute (update_of guild s) (WelcomeModel.sql self) = (conn, Return result) ->
  exists self',
    set_setting execute guild s self = (self', Return tt)
    /\ WelcomeModel.sql self' = conn
    /\ WelcomeModel.get_welcome execute guild self' = (self', Return storage)
    /\ WelcomeModel.heap self' !! storage
       = assignment s <$> WelcomeModel.heap self !! storage
    /\ (forall ref, ref <> storage ->
                    WelcomeModel.heap self' !! ref = WelcomeModel.heap self !! ref)
    /\ WelcomeModel.welcome_cache self' = WelcomeModel.welcome_cache self
    /\ WelcomeModel.alerts_cache self' = WelcomeModel.alerts_cache self.
Proof.
  intros Hc Ha He. rewrite set_setting_eq, Ha, He, Hc.
  eexists. split; [reflexivity|].
  cbn [WelcomeModel.sql WelcomeModel.heap WelcomeModel.welcome_cache
       WelcomeModel.alerts_cache].
  split; [reflexivity|]. split; [apply get_welcome_hit; exact Hc|].
  split; [apply list_lookup_alter_eq|].
  split; [|split; reflexivity].
  intros ref Hne. apply list_lookup_alter_ne. congruence.
Qed.

(** X6.  A setter called for a guild that is not cached, when its
    assertion holds and its UPDATE goes through, raises [KeyError] after
    the statement has run: the connection is in the state the UPDATE left
    it in, and the heap and the caches are as before.
    [set_welcome_channel] with a channel of another guild raises
    [AssertionError] and runs no statement, whatever the state of the
    model and whatever the database would answer. *)
Theorem setter_on_uncached_guild_raises_after_the_update :
  (forall (guild : Guild.t) (s : setting) (self : model)
          (conn : connection) (result : ResultProxy),
     WelcomeModel.welcome_cache self !! Guild.id guild = None ->
     asserted guild s = true ->
     execute (update_of guild s) (WelcomeModel.sql self) = (conn, Return result) ->
     set_setting execute guild s self = (with_sql conn self, Throw KeyError))
  /\ (forall (guild : Guild.t) (channel : TextChannel.t) (self : model),
        Guild.id guild <> TextChannel.guild channel ->
        WelcomeModel.set_welcome_channel execute guild (Some channel) self
        = (self, Throw AssertionError)).
Proof.
  split.
  - intros guild s self conn result Hc Ha He.
    rewrite set_setting_eq, Ha, He, Hc. reflexivity.
  - intros guild channel self Hne.
    change (WelcomeModel.set_welcome_channel execute guild (Some channel) self)
      with (set_setting execute guild (Welcome_channel (Some channel)) self).
    rewrite set_setting_eq. cbn [asserted].
    rewrite bool_decide_eq_false_2 by exact Hne. reflexivity.
Qed.

(** X7.  After any sequence of calls of the methods on a new model,
    whatever they returned or raised: a reference in [welcome_cache]
    leads to a storage object whose guild has the id it is cached under;
    two guilds never share a storage object; and every dict in
    [alerts_cache] is empty. *)
Theorem caches_after_any_calls (sql : connection) (calls : list call) :
  let self := run str_value parse_value execute calls (WelcomeModel.__init__ sql) in
  (forall guild_id ref,
     WelcomeModel.welcome_cache self !! guild_id = Some ref ->
     exists storage,
       WelcomeModel.heap self !! ref = Some storage
       /\ Guild.id (WelcomeStorage.guild storage) = guild_id)
  /\ (forall guild_id1 guild_id2 ref,
        WelcomeModel.welcome_cache self !! guild_id1 = Some ref ->
        WelcomeModel.welcome_cache self !! guild_id2 = Some ref ->
        guild_id1 = guild_id2)
  /\ (forall guild_id d,
        WelcomeModel.alerts_cache self !! guild_id = Some d -> d = ∅).
Proof.
  intros self.
  pose proof (run_caches_ok str_value parse_value execute calls _ (caches_ok_init sql))
    as Hok.
  fold self in Hok. split; [exact (proj1 Hok)|]. split; [|exact (proj2 Hok)].
  intros g1 g2 ref. apply caches_ok_no_sharing. exact Hok.
Qed.

(** X8.  [add_alert] never runs the UPDATE of its first branch: nothing
    stores into [alerts_cache], so after any sequence of calls on a new
    model the statement [add_alert] runs is the INSERT, and the call
    returns or raises as the INSERT does.  With the reference database,
    where a second INSERT of a key raises [IntegrityError], a second
    [add_alert] for the key of an alert of the guild fails and the row
    keeps what the first call wrote. *)
Theorem add_alert_always_inserts :
  (forall (sql : connection) (calls : list call) (guild : Guild.t) (alert : Alert),
     let self := run str_value parse_value execute calls (WelcomeModel.__init__ sql) in
     let ins :=
       WelcomeModel.InsertAlert (Guild.id guild) (WelcomeModel.key alert)
         (WelcomeModel.op alert) (str_value (WelcomeModel.alert_value alert)) in
     WelcomeModel.sql (WelcomeModel.add_alert str_value execute guild alert self).1
     = (execute ins (WelcomeModel.sql self)).1
     /\ (WelcomeModel.add_alert str_value execute guild alert self).2
        = match (execute ins (WelcomeModel.sql self)).2 with
          | Return _ => Return tt
          | Throw e => Throw e
          end)
  /\ (forall (db : ReferenceDB.t) (calls : list call) (guild : Guild.t)
             (alert1 alert2 : Alert) self1,
        let self :=
          run str_value parse_value ReferenceDB.execute calls
            (WelcomeModel.__init__ db) in
        WelcomeModel.key alert2 = WelcomeModel.key alert1 ->
        WelcomeModel.add_alert str_value ReferenceDB.execute guild alert1 self
        = (self1, Return tt) ->
        (WelcomeModel.add_alert str_value ReferenceDB.execute guild alert2 self1).2
        = Throw IntegrityError
        /\ ReferenceDB.join_alerts
             (WelcomeModel.sql
                (WelcomeModel.add_alert str_value ReferenceDB.execute guild alert2
                   self1).1)
           !! (Guild.id guild, WelcomeModel.key alert1)
           = Some (WelcomeModel.op alert1,
                   str_value (WelcomeModel.alert_value alert1))).
Proof.
  assert (forall (C : Type) (ex : statement -> C -> C * outcome ResultProxy)
            (self : @WelcomeModel.t JoinAlertKey _ _ C) gid,
            caches_ok self ->
            WelcomeModel.alerts_cache self !! gid = None
            \/ WelcomeModel.alerts_cache self !! gid = Some ∅) as Hcache.
  { intros C ex self gid [_ Ha].
    destruct (WelcomeModel.alerts_cache self !! gid) as [d|] eqn:E; [|auto].
    right. rewrite (Ha _ _ E). reflexivity. }
  split.
  - intros sql calls guild alert self ins.
    pose proof (run_caches_ok str_value parse_value execute calls _
                  (caches_ok_init sql)) as Hok.
    fold self in Hok.
    rewrite (add_alert_eq _ _ _ _ _ (Hcache _ execute _ (Guild.id guild) Hok)).
    fold ins. cbv zeta.
    destruct (execute ins (WelcomeModel.sql self)) as [conn [r|e]]; split; reflexivity.
  - intros db calls guild alert1 alert2 self1 self Hkey H1.
    pose proof (run_caches_ok str_value parse_value ReferenceDB.execute calls _
                  (caches_ok_init db)) as Hok.
    fold self in Hok.
    pose proof (evolves_caches_ok _ _ _
                  (add_alert_evolves str_value ReferenceDB.execute guild alert1 self) Hok)
      as Hok1.
    rewrite H1 in Hok1. cbn [fst] in Hok1.
    rewrite (add_alert_eq _ _ _ _ _
               (Hcache _ ReferenceDB.execute _ (Guild.id guild) Hok)) in H1.
    cbv zeta in H1. cbn [ReferenceDB.execute] in H1.
    destruct (ReferenceDB.join_alerts (WelcomeModel.sql self)
                !! (Guild.id guild, WelcomeModel.key alert1)) eqn:E1;
      [discriminate|].
    injection H1 as <-.
    rewrite (add_alert_eq _ _ _ _ _
               (Hcache _ ReferenceDB.execute _ (Guild.id guild) Hok1)).
    cbv zeta. cbn [ReferenceDB.execute with_sql WelcomeModel.sql
                   ReferenceDB.join_alerts].
    rewrite Hkey, lookup_insert_eq. cbn. rewrite lookup_insert_eq. auto.
Qed.

(** X9.  With a database whose results carry [rowcount] as an integer,
    as SQLAlchemy's do and as [get_welcome] reads it, [remove_alert]
    never returns: when the DELETE goes through, the call of
    [result.rowcount()] raises [TypeError], after the statement has run. *)
Theorem remove_alert_raises_after_the_delete
    (guild : Guild.t) (key : JoinAlertKey) (self : model)
    (conn : connection) (result : ResultProxy) (n : Z) :
  execute (WelcomeModel.DeleteAlert (Guild.id guild) key) (WelcomeModel.sql self)
  = (conn, Return result) ->
  WelcomeModel.rowcount result = WelcomeModel.IntAttr n ->
  WelcomeModel.remove_alert execute guild key self
  = (with_sql conn self, Throw TypeError).
Proof.
  intros He Hn. rewrite remove_alert_eq, He, Hn. reflexivity.
Qed.

(** X10.  [remove_welcome] takes the storage of the guild out of the
    cache without an error when there is none, and the object it took
    out is never written again: after any further calls the object is as
    it was when it left the cache, and the cache does not refer to it, so
    a caller that kept it does not see later settings. *)
Theorem removed_storage_is_never_written_again
    (sql : connection) (before : list call) (guild : Guild.t)
    (conn : connection) (result : ResultProxy) :
  let self := run str_value parse_value execute before (WelcomeModel.__init__ sql) in
  execute (WelcomeModel.DeleteWelcome (Guild.id guild)) (WelcomeModel.sql self)
  = (conn, Return result) ->
  exists self',
    WelcomeModel.remove_welcome execute guild self = (self', Return tt)
    /\ WelcomeModel.welcome_cache self' !! Guild.id guild = None
    /\ forall ref,
         WelcomeModel.welcome_cache self !! Guild.id guild = Some ref ->
         exists storage,
           WelcomeModel.heap self !! ref = Some storage
           /\ forall (after : list call),
                let self'' := run str_value parse_value execute after self' in
                WelcomeModel.heap self'' !! ref = Some storage
                /\ forall guild_id,
                     WelcomeModel.welcome_cache self'' !! guild_id <> Some ref.
Proof.
  intros self He.
  pose proof (run_caches_ok str_value parse_value execute before _
                (caches_ok_init sql)) as Hok.
  fold self in Hok.
  rewrite remove_welcome_eq, He. eexists. split; [reflexivity|].
  cbn [WelcomeModel.welcome_cache WelcomeModel.heap].
  split; [apply lookup_delete_eq|].
  intros ref Hc. destruct (proj1 Hok _ _ Hc) as (storage & Hst & Hg).
  exists storage. split; [exact Hst|]. intros after. cbv zeta.
  match goal with
  | |- context [run _ _ _ after ?s] => assert (detached ref s) as Hd
  end.
  { split; [eapply lookup_lt_Some; exact Hst|].
    cbn [WelcomeModel.welcome_cache]. intros gid ref' Hc' ->.
    destruct (decide (gid = Guild.id guild)) as [->|Hne].
    - rewrite lookup_delete_eq in Hc'. discriminate.
    - rewrite lookup_delete_ne in Hc' by congruence.
      apply Hne. exact (caches_ok_no_sharing _ _ _ _ Hok Hc' Hc). }
  destruct (run_detached str_value parse_value execute after _ _ _ Hd Hst)
    as [[_ Hfree] Hst'].
  split; [exact Hst'|]. intros gid Hc'. exact (Hfree _ _ Hc' eq_refl).
Qed.

(** X15.  [get_all_alerts] is all or nothing.  When its SELECT goes
    through, it returns a list exactly when every fetched row parses, and
    the list has one alert per row, in the order fetched, with the key
    and the relationship of the row and the value that
    [key.parse_value] makes of the stored string; when a row does not
    parse, the call raises and no part of the list is returned.  Either
    way the caches and the storage objects are as before. *)
Theorem get_all_alerts_parses_every_row
    (guild : Guild.t) (self : model) (conn : connection) (result : ResultProxy) :
  execute (WelcomeModel.SelectAlerts (Guild.id guild)) (WelcomeModel.sql self)
  = (conn, Return result) ->
  (WelcomeModel.get_all_alerts parse_value execute guild self).1 = with_sql conn self
  /\ forall alerts,
       (WelcomeModel.get_all_alerts parse_value execute guild self).2 = Return alerts
       <-> Forall2 (alert_of_row parse_value) (WelcomeModel.rows result) alerts.
Proof.
  intros He. unfold WelcomeModel.get_all_alerts, WelcomeModel.bindM,
    WelcomeModel.sql_execute, WelcomeModel.lift. rewrite He.
  split; [reflexivity|]. intros alerts. cbn [snd]. rewrite alerts_of_spec.
  split.
  - intros (new & -> & F). exact F.
  - intros F. exists alerts. auto.
Qed.

End Welcome_properties.

Section Welcome_persistence.
Import Welcome.

Context {JoinAlertKey : Type} `{!EqDecision JoinAlertKey, !Countable JoinAlertKey}.
Context {ValueRelationship value : Type}.

#[local] Abbreviation database := (@ReferenceDB.t JoinAlertKey _ _ ValueRelationship).
#[local] Abbreviation call' := (@call JoinAlertKey ValueRelationship value).

Variable str_value : value -> str.
Variable parse_value : JoinAlertKey -> str -> outcome value.

(** X11.  The settings survive a restart.  On the reference database,
    after any sequence of calls on a new model, take a cached storage: a
    second new model on the database the first one leaves reads the
    guild back, by [get_welcome], without writing, as a storage with the
    same three messages and the same flag; and with the same channel id,
    when the storage had a channel and the guild still has a text channel
    of that id.  So the statements the methods write with and the SELECT
    of [get_welcome] agree on the columns, the INSERT of [add_welcome]
    included. *)
Theorem settings_survive_a_restart
    (db : database) (calls : list call') (guild : Guild.t)
    (ref : nat) (storage : WelcomeStorage.t) :
  let self :=
    run str_value parse_value ReferenceDB.execute calls (WelcomeModel.__init__ db) in
  WelcomeModel.welcome_cache self !! Guild.id guild = Some ref ->
  WelcomeModel.heap self !! ref = Some storage ->
  exists self' storage',
    WelcomeModel.get_welcome ReferenceDB.execute guild
      (WelcomeModel.__init__ (WelcomeModel.sql self))
    = (self', Return 0%nat)
    /\ WelcomeModel.sql self' = WelcomeModel.sql self
    /\ WelcomeModel.heap self' !! 0%nat = Some storage'
    /\ WelcomeStorage.welcome_message storage' = WelcomeStorage.welcome_message storage
    /\ WelcomeStorage.goodbye_message storage' = WelcomeStorage.goodbye_message storage
    /\ WelcomeStorage.agreed_message storage' = WelcomeStorage.agreed_message storage
    /\ WelcomeStorage.delete_on_agree storage' = WelcomeStorage.delete_on_agree storage
    /\ forall ch,
         WelcomeStorage.channel storage = Some ch ->
         (exists ch', ch' ∈ Guild.text_channels guild
                      /\ TextChannel.id ch' = TextChannel.id ch) ->
         WelcomeStorage.channel_id storage' = Some (TextChannel.id ch).
Proof.
  intros self Hc Hst.
  pose proof (run_caches_ok str_value parse_value ReferenceDB.execute calls _
                (caches_ok_init db)) as Hok.
  pose proof (run_coherent str_value parse_value calls _
                (caches_ok_init db) (coherent_init db)) as Hcoh.
  fold self in Hok, Hcoh. clearbody self.
  destruct (Hcoh _ _ _ Hc Hst) as (wcid & Hrow & Hch).
  pose proof (get_welcome_from_the_database guild
                (WelcomeModel.__init__ (WelcomeModel.sql self)) (lookup_empty _)) as Hg.
  cbn [WelcomeModel.sql WelcomeModel.heap WelcomeModel.welcome_cache
       WelcomeModel.alerts_cache WelcomeModel.__init__ length app] in Hg.
  match type of Hg with
  | context [match ?row with Some _ => _ | None => _ end] =>
      replace row with (Some (columns_of storage wcid)) in Hg
        by (symmetry; exact Hrow)
  end.
  unfold columns_of in Hg.
  eexists _, _. split; [exact Hg|]. cbn [WelcomeModel.sql WelcomeModel.heap].
  split; [reflexivity|]. split; [reflexivity|].
  cbn [WelcomeStorage.__init__ WelcomeStorage.welcome_message
       WelcomeStorage.goodbye_message WelcomeStorage.agreed_message
       WelcomeStorage.delete_on_agree].
  do 4 (split; [reflexivity|]).
  intros ch Hsch (ch' & Hin & Hid). unfold WelcomeStorage.channel in Hsch.
  destruct Hch as [Hnone|Hsome]; [congruence|].
  unfold WelcomeStorage.channel_id, WelcomeStorage.welcome_channel_id in Hsome.
  rewrite Hsch in Hsome. cbn in Hsome. subst wcid.
  unfold WelcomeStorage.channel_id, WelcomeStorage.welcome_channel_id.
  cbn [WelcomeStorage.welcome_channel WelcomeStorage.__init__].
  destruct (utils_get (Guild.text_channels guild) (Some (TextChannel.id ch)))
    as [found|] eqn:E.
  - apply utils_get_Some in E as [_ [= ->]]. reflexivity.
  - destruct (proj1 (utils_get_None _ _) E ch' Hin). congruence.
Qed.

(** X12.  [add_welcome] does not reset a guild that has its settings.
    On the reference database, after any sequence of calls on a new
    model, [add_welcome] for a guild that is cached raises
    [IntegrityError]: the row of the guild, the cache and the storage
    objects are as they were. *)
Theorem add_welcome_does_not_reset_a_cached_guild
    (db : database) (calls : list call') (guild : Guild.t) (ref : nat) :
  let self :=
    run str_value parse_value ReferenceDB.execute calls (WelcomeModel.__init__ db) in
  WelcomeModel.welcome_cache self !! Guild.id guild = Some ref ->
  exists self',
    WelcomeModel.add_welcome ReferenceDB.execute guild self
    = (self', Throw IntegrityError)
    /\ WelcomeModel.sql self' = WelcomeModel.sql self
    /\ WelcomeModel.welcome_cache self' = WelcomeModel.welcome_cache self
    /\ forall ref' storage,
         WelcomeModel.heap self !! ref' = Some storage ->
         WelcomeModel.heap self' !! ref' = Some storage.
Proof.
  intros self Hc.
  pose proof (run_caches_ok str_value parse_value ReferenceDB.execute calls _
                (caches_ok_init db)) as Hok.
  pose proof (run_coherent str_value parse_value calls _
                (caches_ok_init db) (coherent_init db)) as Hcoh.
  fold self in Hok, Hcoh. clearbody self.
  destruct (proj1 Hok _ _ Hc) as (storage & Hst & _).
  destruct (Hcoh _ _ _ Hc Hst) as (wcid & Hrow & _).
  rewrite add_welcome_eq. cbn [ReferenceDB.execute].
  match goal with
  | |- context [match ?row with Some _ => _ | None => _ end] =>
      replace row with (Some (columns_of storage wcid)) by (symmetry; exact Hrow)
  end.
  eexists. split; [reflexivity|]. cbn [WelcomeModel.sql WelcomeModel.heap
                                        WelcomeModel.welcome_cache].
  split; [reflexivity|]. split; [reflexivity|].
  intros ref' st' Hst'. rewrite lookup_app_l by (eapply lookup_lt_Some; eauto).
  exact Hst'.
Qed.

(** X13.  Leaving resets the settings.  On the reference database, in
    any state of the model, [remove_welcome] for a guild returns, and
    [get_welcome] for the guild then returns a new storage with the
    defaults (no message, delete on agree, no channel) beside a new row
    that holds the same, whatever was set before. *)
Theorem leaving_resets_the_settings
    (self : @WelcomeModel.t JoinAlertKey _ _ database) (guild : Guild.t) :
  exists self1 self2,
    WelcomeModel.remove_welcome ReferenceDB.execute guild self = (self1, Return tt)
    /\ WelcomeModel.get_welcome ReferenceDB.execute guild self1
       = (self2, Return (length (WelcomeModel.heap self)))
    /\ WelcomeModel.heap self2 !! length (WelcomeModel.heap self)
       = Some {| WelcomeStorage.guild := guild;
                 WelcomeStorage.welcome_message := None;
                 WelcomeStorage.goodbye_message := None;
                 WelcomeStorage.agreed_message := None;
                 WelcomeStorage.delete_on_agree := true;
                 WelcomeStorage.welcome_channel := None |}
    /\ ReferenceDB.welcome (WelcomeModel.sql self2) !! Guild.id guild
       = Some (None, None, None, true, None).
Proof.
  rewrite remove_welcome_eq. cbn [ReferenceDB.execute ReferenceDB.changed].
  eexists _, _. split; [reflexivity|].
  rewrite get_welcome_from_the_database
    by (cbn [WelcomeModel.welcome_cache]; apply lookup_delete_eq).
  cbn [WelcomeModel.sql ReferenceDB.welcome WelcomeModel.heap].
  rewrite lookup_delete_eq. split; [reflexivity|].
  cbn [WelcomeModel.heap WelcomeModel.sql ReferenceDB.welcome].
  rewrite list_lookup_middle by reflexivity. rewrite default_storage.
  split; [reflexivity|]. apply lookup_insert_eq.
Qed.

End Welcome_persistence.

(** *** The properties that have hypotheses, at given arguments *)

Section Welcome_witnesses.
Import Welcome.

(** X4 at the first [get_welcome] on a new model on the empty reference
    database. *)
Lemma get_welcome_answers_from_the_cache_witness :
  WelcomeModel.welcome_cache welcomed !! Guild.id programming = Some 0%nat
  /\ (forall guild',
        Guild.id guild' = Guild.id programming ->
        WelcomeModel.get_welcome ReferenceDB.execute guild' welcomed
        = (welcomed, Return 0%nat))
  /\ (is_Some (WelcomeModel.welcome_cache new_model !! Guild.id programming) ->
      welcomed = new_model)
  /\ (WelcomeModel.welcome_cache new_model !! Guild.id programming = None ->
      0%nat = length (WelcomeModel.heap new_model)
      /\ (exists object,
            WelcomeModel.heap welcomed = WelcomeModel.heap new_model ++ [object]
            /\ WelcomeStorage.guild object = programming)
      /\ forall guild_id,
           guild_id <> Guild.id programming ->
           WelcomeModel.welcome_cache welcomed !! guild_id
           = WelcomeModel.welcome_cache new_model !! guild_id).
Proof.
  apply (get_welcome_answers_from_the_cache ReferenceDB.execute programming
           new_model welcomed 0).
  vm_compute. reflexivity.
Defined.

(** X5 at [set_welcome_message(guild, "hello")] after [get_welcome]. *)
Lemma setter_assigns_to_the_cached_object_witness :
  exists self',
    set_setting ReferenceDB.execute programming (Welcome_message (Some (lit "hello")))
      welcomed
    = (self', Return tt)
    /\ WelcomeModel.sql self'
       = (ReferenceDB.execute
            (update_of programming (Welcome_message (Some (lit "hello"))))
            (WelcomeModel.sql welcomed)).1
    /\ WelcomeModel.get_welcome ReferenceDB.execute programming self'
       = (self', Return 0%nat)
    /\ WelcomeModel.heap self' !! 0%nat
       = assignment (Welcome_message (Some (lit "hello")))
           <$> WelcomeModel.heap welcomed !! 0%nat
    /\ (forall ref, ref <> 0%nat ->
                    WelcomeModel.heap self' !! ref = WelcomeModel.heap welcomed !! ref)
    /\ WelcomeModel.welcome_cache self' = WelcomeModel.welcome_cache welcomed
    /\ WelcomeModel.alerts_cache self' = WelcomeModel.alerts_cache welcomed.
Proof.
  apply (setter_assigns_to_the_cached_object ReferenceDB.execute programming
           (Welcome_message (Some (lit "hello"))) welcomed 0 _
           {| WelcomeModel.rowcount := WelcomeModel.IntAttr 1;
              WelcomeModel.rows := [] |}).
  - vm_compute. reflexivity.
  - reflexivity.
  - vm_compute. reflexivity.
Defined.

(** X6 at [set_welcome_message(guild, "hello")] on the model started
    again: the guild has its row and is not cached. *)
Lemma setter_on_uncached_guild_raises_witness :
  set_setting ReferenceDB.execute programming (Welcome_message (Some (lit "hello")))
    restarted
  = (with_sql
       (ReferenceDB.execute
          (update_of programming (Welcome_message (Some (lit "hello"))))
          (WelcomeModel.sql restarted)).1
       restarted,
     Throw KeyError).
Proof.
  apply (proj1 (setter_on_uncached_guild_raises_after_the_update ReferenceDB.execute)
           programming (Welcome_message (Some (lit "hello"))) restarted _
           {| WelcomeModel.rowcount := WelcomeModel.IntAttr 1;
              WelcomeModel.rows := [] |}).
  - vm_compute. reflexivity.
  - reflexivity.
  - vm_compute. reflexivity.
Defined.

(** X9 at [remove_alert] of the key 3 on a new model. *)
Lemma remove_alert_raises_witness :
  WelcomeModel.remove_alert ReferenceDB.execute programming 3 new_model
  = (with_sql
       (ReferenceDB.execute (WelcomeModel.DeleteAlert (Guild.id programming) 3)
          (WelcomeModel.sql new_model)).1
       new_model,
     Throw TypeError).
Proof.
  apply (remove_alert_raises_after_the_delete ReferenceDB.execute programming 3
           new_model _
           {| WelcomeModel.rowcount := WelcomeModel.IntAttr 0;
              WelcomeModel.rows := [] |} 0).
  - vm_compute. reflexivity.
  - reflexivity.
Defined.

(** X10 at [remove_welcome] after [get_welcome], on the reference
    database. *)
Lemma removed_storage_is_never_written_again_witness :
  exists self',
    WelcomeModel.remove_welcome ReferenceDB.execute programming
      (run number_str number_parse ReferenceDB.execute [Get_welcome programming]
         new_model)
    = (self', Return tt)
    /\ WelcomeModel.welcome_cache self' !! Guild.id programming = None
    /\ forall ref,
         WelcomeModel.welcome_cache
           (run number_str number_parse ReferenceDB.execute [Get_welcome programming]
              new_model)
         !! Guild.id programming = Some ref ->
         exists storage,
           WelcomeModel.heap
             (run number_str number_parse ReferenceDB.execute
                [Get_welcome programming] new_model)
           !! ref = Some storage
           /\ forall (after : list call),
                WelcomeModel.heap
                  (run number_str number_parse ReferenceDB.execute after self')
                !! ref = Some storage
                /\ forall guild_id,
                     WelcomeModel.welcome_cache
                       (run number_str number_parse ReferenceDB.execute after self')
                     !! guild_id <> Some ref.
Proof.
  apply (removed_storage_is_never_written_again number_str number_parse
           ReferenceDB.execute empty_db [Get_welcome programming] programming
           (ReferenceDB.execute (WelcomeModel.DeleteWelcome (Guild.id programming))
              (WelcomeModel.sql welcomed)).1
           {| WelcomeModel.rowcount := WelcomeModel.IntAttr 1;
              WelcomeModel.rows := [] |}).
  vm_compute. reflexivity.
Defined.

(** X11 at the guild after [set_welcome_message(guild, "hello")] and
    [set_welcome_channel(guild, general)]. *)
Lemma settings_survive_a_restart_witness :
  exists self' storage',
    WelcomeModel.get_welcome ReferenceDB.execute programming
      (WelcomeModel.__init__
         (WelcomeModel.sql
            (run number_str number_parse ReferenceDB.execute
               [Get_welcome programming;
                Set_setting programming (Welcome_message (Some (lit "hello")));
                Set_setting programming (Welcome_channel (Some general))]
               new_model)))
    = (self', Return 0%nat)
    /\ WelcomeModel.sql self'
       = WelcomeModel.sql
           (run number_str number_parse ReferenceDB.execute
              [Get_welcome programming;
               Set_setting programming (Welcome_message (Some (lit "hello")));
               Set_setting programming (Welcome_channel (Some general))]
              new_model)
    /\ WelcomeModel.heap self' !! 0%nat = Some storage'
    /\ WelcomeStorage.welcome_message storage' = Some (lit "hello")
    /\ WelcomeStorage.goodbye_message storage' = None
    /\ WelcomeStorage.agreed_message storage' = None
    /\ WelcomeStorage.delete_on_agree storage' = true
    /\ forall ch,
         Some general = Some ch ->
         (exists ch', ch' ∈ Guild.text_channels programming
                      /\ TextChannel.id ch' = TextChannel.id ch) ->
         WelcomeStorage.channel_id storage' = Some (TextChannel.id ch).
Proof.
  apply (settings_survive_a_restart number_str number_parse empty_db
           [Get_welcome programming;
            Set_setting programming (Welcome_message (Some (lit "hello")));
            Set_setting programming (Welcome_channel (Some general))]
           programming 0
           {| WelcomeStorage.guild := programming;
              WelcomeStorage.welcome_message := Some (lit "hello");
              WelcomeStorage.goodbye_message := None;
              WelcomeStorage.agreed_message := None;
              WelcomeStorage.delete_on_agree := true;
              WelcomeStorage.welcome_channel := Some general |}).
  - vm_compute. reflexivity.
  - vm_compute. reflexivity.
Defined.

(** X12 at [add_welcome] for the guild after [get_welcome] and
    [set_welcome_message(guild, "hello")]. *)
Lemma add_welcome_does_not_reset_witness :
  exists self',
    WelcomeModel.add_welcome ReferenceDB.execute programming
      (run number_str number_parse ReferenceDB.execute
         [Get_welcome programming;
          Set_setting programming (Welcome_message (Some (lit "hello")))]
         new_model)
    = (self', Throw IntegrityError)
    /\ WelcomeModel.sql self'
       = WelcomeModel.sql
           (run number_str number_parse ReferenceDB.execute
              [Get_welcome programming;
               Set_setting programming (Welcome_message (Some (lit "hello")))]
              new_model)
    /\ WelcomeModel.welcome_cache self'
       = WelcomeModel.welcome_cache
           (run number_str number_parse ReferenceDB.execute
              [Get_welcome programming;
               Set_setting programming (Welcome_message (Some (lit "hello")))]
              new_model)
    /\ forall ref' storage,
         WelcomeModel.heap
           (run number_str number_parse ReferenceDB.execute
              [Get_welcome programming;
               Set_setting programming (Welcome_message (Some (lit "hello")))]
              new_model)
         !! ref' = Some storage ->
         WelcomeModel.heap self' !! ref' = Some storage.
Proof.
  apply (add_welcome_does_not_reset_a_cached_guild number_str number_parse empty_db
           [Get_welcome programming;
            Set_setting programming (Welcome_message (Some (lit "hello")))]
           programming 0).
  vm_compute. reflexivity.
Defined.

(** X15 at [get_all_alerts] after [add_alert] of the alert with key 3,
    relationship 1 and value 7. *)
Lemma get_all_alerts_parses_every_row_witness :
  (WelcomeModel.get_all_alerts number_parse ReferenceDB.execute programming
     (run number_str number_parse ReferenceDB.execute
        [Add_alert programming
           {| WelcomeModel.key := 3; WelcomeModel.op := 1;
              WelcomeModel.alert_value := 7 |}]
        new_model)).1
  = with_sql
      (WelcomeModel.sql
         (run number_str number_parse ReferenceDB.execute
            [Add_alert programming
               {| WelcomeModel.key := 3; WelcomeModel.op := 1;
                  WelcomeModel.alert_value := 7 |}]
            new_model))
      (run number_str number_parse ReferenceDB.execute
         [Add_alert programming
            {| WelcomeModel.key := 3; WelcomeModel.op := 1;
               WelcomeModel.alert_value := 7 |}]
         new_model)
  /\ forall alerts,
       (WelcomeModel.get_all_alerts number_parse ReferenceDB.execute programming
          (run number_str number_parse ReferenceDB.execute
             [Add_alert programming
                {| WelcomeModel.key := 3; WelcomeModel.op := 1;
                   WelcomeModel.alert_value := 7 |}]
             new_model)).2
       = Return alerts
       <-> Forall2 (alert_of_row number_parse)
             [WelcomeModel.AlertRow 3 1 (lit "7")] alerts.
Proof.
  apply (get_all_alerts_parses_every_row number_parse ReferenceDB.execute
           programming
           (run number_str number_parse ReferenceDB.execute
              [Add_alert programming
                 {| WelcomeModel.key := 3; WelcomeModel.op := 1;
                    WelcomeModel.alert_value := 7 |}]
              new_model)
           _
           {| WelcomeModel.rowcount := WelcomeModel.IntAttr 1;
              WelcomeModel.rows := [WelcomeModel.AlertRow 3 1 (lit "7")] |}).
  vm_compute. reflexivity.
Defined.

End Welcome_witnesses.

(** ** cogs/misc/core.py *)

(** X14.  [ping] shows the latency modulo one second.  The number it
    divides by 1000 is the attribute [microseconds] of the difference of
    the two datetimes, which is the elapsed time in microseconds modulo
    1000000: the figure shown is at least 0 and below 1000 ms whatever
    the two times are; it is the elapsed time when that is under a
    second; and it is the same when the clock reads any whole number of
    seconds more or less (a reply that takes 1.25 s shows 250 ms, and an
    offset of whole seconds between [datetime.now()], which is local
    time, and the time of the message, which is UTC, does not show). *)
Theorem ping_shows_the_latency_modulo_one_second
    (snowflake_time : Z -> Miscellaneous.datetime)
    (now : Miscellaneous.datetime) (message_id : Z) :
  let shown := Miscellaneous.ping snowflake_time now message_id in
  let elapsed :=
    (total_microseconds now - total_microseconds (snowflake_time message_id))%Z in
  (0 <= shown < 1000000)%Z
  /\ shown = (elapsed mod 1000000)%Z
  /\ ((0 <= elapsed < 1000000)%Z -> shown = elapsed)
  /\ (forall (later : Miscellaneous.datetime) (k : Z),
        total_microseconds later = (total_microseconds now + k * 1000000)%Z ->
        Miscellaneous.ping snowflake_time later message_id = shown).
Proof.
  intros shown elapsed.
  assert (shown = (elapsed mod 1000000)%Z) as E by apply ping_mod_second.
  split; [rewrite E; apply Z.mod_pos_bound; lia|].
  split; [exact E|]. split.
  - intros Hb. rewrite E. apply Z.mod_small. exact Hb.
  - intros later k Hl. rewrite E, ping_mod_second, Hl. subst elapsed.
    replace (total_microseconds now + k * 1000000
             - total_microseconds (snowflake_time message_id))%Z
      with (total_microseconds now - total_microseconds (snowflake_time message_id)
            + k * 1000000)%Z by lia.
    apply Z.mod_add. lia.
Qed.

